(** * historicalapi: the GDAX historical-candle poller (datamodels/gdax.go)

    A shallow embedding of [datamodels/gdax.go] and of the parts of Go's
    [time], [strings], [strconv] and [net/http] packages it calls, followed
    by the properties of the interval partitioner, the row filter, the
    normaliser and the fetch loop.

    Modelling conventions.
    - A [time.Time] is an instant in UTC, held as the number of nanoseconds
      since the Unix epoch (an unbounded [Z]; Go's 64-bit limits, far outside
      any calendar date the poller meets, are not modelled).  Calendar
      arithmetic follows [time.Date] and [Time.AddDate]: the civil date is
      shifted field by field and then normalised.
    - The wall clock is an input: [getIntervalPartition] receives the value of
      [roundTime(time.Now())].  [roundTime] lives in another file of the
      package; every result below holds for any value it may return.
    - The interval constants [TWOYEAR] .. [DAY] are declared in another file
      of the package; they are taken as parameters, pairwise distinct (a Go
      map literal or [switch] with a repeated constant does not compile).
    - A [float64] is a [spec_float] of the standard library.
    - JSON decoding and [strconv.FormatFloat] are external collaborators,
      taken as parameters; the HTTP transport is a function of the requests
      sent so far and of the URL.
    - A Go run-time panic is an explicit outcome ([Panicked]); a loop that
      has not finished within its fuel yields [OutOfFuel].
    - A slice that may be [nil] at a return is an [option (list _)]. *)

From Stdlib Require Import ZArith Lia List Ascii String DecimalString.
From Stdlib Require Import Floats.SpecFloat.
From stdpp Require Import gmap strings list fin_maps.
Import ListNotations.

Open Scope bool_scope.
Open Scope Z_scope.

(** ** Outcomes of a Go call *)

Inductive PanicReason : Type :=
| IndexOutOfRange (index len : Z)
| NilDereference.

Inductive Exec (A : Type) : Type :=
| Returned (a : A)
| Panicked (why : PanicReason)
| OutOfFuel.

Arguments Returned {A} a.
Arguments Panicked {A} why.
Arguments OutOfFuel {A}.

Definition bindExec {A B : Type} (m : Exec A) (k : A -> Exec B) : Exec B :=
  match m with
  | Returned a => k a
  | Panicked why => Panicked why
  | OutOfFuel => OutOfFuel
  end.

Notation "'run' x <- m 'in' k" := (bindExec m (fun x => k))
  (at level 10, x name, m at level 100, k at level 200).

(** ** Package time *)

Module GoTime.

Definition Time : Type := Z.

Definition nanosPerSecond : Z := 1000000000.
Definition secondsPerDay : Z := 86400.
Definition nanosPerDay : Z := secondsPerDay * nanosPerSecond.
Definition daysPer400Years : Z := 146097.
Definition daysPer100Years : Z := 36524.
Definition daysPer4Years : Z := 1461.

(** Seconds from 1 January of year 1 to the Unix epoch. *)
Definition unixToInternal : Z := 62135596800.

Definition isLeap (year : Z) : bool :=
  (year mod 4 =? 0) && (negb (year mod 100 =? 0) || (year mod 400 =? 0)).

(** [daysBefore i]: days of a non-leap year before month [i + 1]. *)
Definition daysBefore (i : Z) : Z :=
  nth (Z.to_nat i)
    [0; 31; 59; 90; 120; 151; 181; 212; 243; 273; 304; 334; 365] 0.

(** Days from 1 January of year 1 to 1 January of [year]. *)
Definition daysSinceEpoch (year : Z) : Z :=
  let y := year - 1 in
  let n := y / 400 in
  let y := y - 400 * n in
  let d := daysPer400Years * n in
  let n := y / 100 in
  let y := y - 100 * n in
  let d := d + daysPer100Years * n in
  let n := y / 4 in
  let y := y - 4 * n in
  let d := d + daysPer4Years * n in
  let n := y in
  d + 365 * n.

(** [norm hi lo base]: carry [lo] into [hi] until [0 <= lo < base]. *)
Definition norm (hi lo base : Z) : Z * Z :=
  let '(hi, lo) :=
    if lo <? 0 then
      let n := (- lo - 1) / base + 1 in (hi - n, lo + n * base)
    else (hi, lo) in
  if base <=? lo then
    let n := lo / base in (hi + n, lo - n * base)
  else (hi, lo).

(** The day-counting part of [time.Date]: the month is normalised into the
    year, then the days before the year, before the month and before the
    day are added up.  The day is not normalised: day 31 of a 30-day month
    is the first day of the next one. *)
Definition dateToDays (year month day : Z) : Z :=
  let m := month - 1 in
  let '(year, m) := norm year m 12 in
  let month := m + 1 in
  let d := daysSinceEpoch year in
  let d := d + daysBefore (month - 1) in
  let d := if isLeap year && (3 <=? month) then d + 1 else d in
  d + (day - 1).

(** [time.Date(year, month, day, hour, min, sec, nsec, time.UTC)]. *)
Definition Date (year month day hour min sec nsec : Z) : Time :=
  let '(sec, nsec) := norm sec nsec nanosPerSecond in
  let '(min, sec) := norm min sec 60 in
  let '(hour, min) := norm hour min 60 in
  let '(day, hour) := norm day hour 24 in
  let d := dateToDays year month day in
  let abs := d * secondsPerDay + hour * 3600 + min * 60 + sec in
  (abs - unixToInternal) * nanosPerSecond + nsec.

(** First half of [absDate]: the year of a day number and the day within
    that year (from 0). *)
Definition absYear (d : Z) : Z * Z :=
  let n := d / daysPer400Years in
  let y := 400 * n in
  let d := d - daysPer400Years * n in
  let n := d / daysPer100Years in
  let n := n - n / 4 in
  let y := y + 100 * n in
  let d := d - daysPer100Years * n in
  let n := d / daysPer4Years in
  let y := y + 4 * n in
  let d := d - daysPer4Years * n in
  let n := d / 365 in
  let n := n - n / 4 in
  let y := y + n in
  let d := d - 365 * n in
  (y + 1, d).

(** Second half of [absDate]: month and day of the month from the day of
    the year. *)
Definition yearDayToDate (leap : bool) (yday : Z) : Z * Z :=
  if leap && (yday =? 31 + 29 - 1) then (2, 29)
  else
    let day := if leap && (31 + 29 - 1 <? yday) then yday - 1 else yday in
    let month := day / 31 in
    let e := daysBefore (month + 1) in
    let '(month, begin) :=
      if e <=? day then (month + 1, e) else (month, daysBefore month) in
    (month + 1, day - begin + 1).

Definition absDate (d : Z) : Z * Z * Z :=
  let '(year, yday) := absYear d in
  let '(month, day) := yearDayToDate (isLeap year) yday in
  (year, month, day).

(** Days from 1 January of year 1 to the day of [t]. *)
Definition absDays (t : Time) : Z :=
  (t / nanosPerSecond + unixToInternal) / secondsPerDay.

(** [t.Day()]: the day of the month. *)
Definition Day (t : Time) : Z :=
  let '(_, _, day) := absDate (absDays t) in day.

(** [t.AddDate(years, months, days)]. *)
Definition AddDate (t : Time) (years months days : Z) : Time :=
  let nsec := t mod nanosPerSecond in
  let abs := t / nanosPerSecond + unixToInternal in
  let '(year, month, day) := absDate (abs / secondsPerDay) in
  let s := abs mod secondsPerDay in
  let hour := s / 3600 in
  let min := (s mod 3600) / 60 in
  let sec := s mod 60 in
  Date (year + years) (month + months) (day + days) hour min sec nsec.

(** [time.Unix(sec, nsec)]. *)
Definition Unix (sec nsec : Z) : Time := sec * nanosPerSecond + nsec.

Definition Before (t u : Time) : bool := t <? u.
Definition After (t u : Time) : bool := u <? t.
Definition Equal (t u : Time) : bool := t =? u.

(** [appendInt]: decimal digits, zero-padded to [width], after the sign. *)
Definition digits (n : Z) : string :=
  NilZero.string_of_uint (N.to_uint (Z.to_N n)).

Fixpoint zeros (n : nat) : string :=
  match n with
  | O => EmptyString
  | S n' => String "0" (zeros n')
  end.

Definition appendInt (x : Z) (width : nat) : string :=
  let u := digits (Z.abs x) in
  let padded := String.append (zeros (width - String.length u)) u in
  if x <? 0 then String "-" padded else padded.

(** [t.Format("2006-01-02")]. *)
Definition formatDate (t : Time) : string :=
  let '(year, month, day) := absDate (absDays t) in
  String.append (appendInt year 4)
    (String "-" (String.append (appendInt month 2)
       (String "-" (appendInt day 2)))).

End GoTime.

Import GoTime.

(** ** float64 and its conversion to int64 *)

Definition float64 : Type := spec_float.

Definition minInt64 : Z := - 2 ^ 63.
Definition maxInt64 : Z := 2 ^ 63 - 1.

(** [int64(f)]: the fraction is discarded (truncation towards zero).  For a
    value outside the int64 range, an infinity or a NaN the Go specification
    leaves the result to the implementation; amd64 yields the least int64. *)
Definition int64 (f : float64) : Z :=
  match f with
  | S754_zero _ => 0
  | S754_finite sign m e =>
      let magnitude :=
        if 0 <=? e then Z.pos m * 2 ^ e else Z.pos m / 2 ^ (- e) in
      let v := if sign then - magnitude else magnitude in
      if (minInt64 <=? v) && (v <=? maxInt64) then v else minInt64
  | S754_infinity _ => minInt64
  | S754_nan => minInt64
  end.

(** ** Package strings and strconv *)

Definition upperByte (c : ascii) : ascii :=
  let n := nat_of_ascii c in
  if (Nat.leb 97 n) && (Nat.leb n 122) then ascii_of_nat (n - 32) else c.

(** [strings.ToUpper] on ASCII text; bytes outside [a-z] are kept (the
    mapping of letters beyond ASCII is not modelled). *)
Fixpoint ToUpper (s : string) : string :=
  match s with
  | EmptyString => EmptyString
  | String c rest => String (upperByte c) (ToUpper rest)
  end.

(** [strconv.FormatInt(n, 10)]. *)
Definition FormatInt (n : Z) : string := appendInt n 0.

(** ** Package net/http and the decoders *)

Record Response : Type := mkResponse {
  StatusCode : Z;
  Body : string
}.

Definition StatusOK : Z := 200.
Definition StatusInternalServerError : Z := 500.

(** [http.Get(url)] returns a response pointer and an error; either may be
    nil.  The answer may depend on the requests already sent. *)
Definition Transport : Type :=
  list string -> string -> option Response * option string.

Inductive Decoded (A : Type) : Type :=
| DecodeOk (value : A)
| DecodeFail (err : string).

Arguments DecodeOk {A} value.
Arguments DecodeFail {A} err.

(** What the package borrows from [encoding/json], [strconv] and
    [trademodels]: decoding a success body into rows, decoding an error body
    into its [Message], and [strconv.FormatFloat(x, 'f', -1, 64)]. *)
Class Collaborators : Type := {
  decodeBuckets : string -> Decoded (list (list float64));
  decodeGdaxError : string -> Decoded string;
  FormatFloat : float64 -> string
}.

(** The interval constants of the package. *)
Class IntervalLabels : Type := {
  TWOYEAR : string;
  YEAR : string;
  SIXMONTH : string;
  THREEMONTH : string;
  MONTH : string;
  WEEK : string;
  DAY : string;
  labels_distinct :
    NoDup [TWOYEAR; YEAR; SIXMONTH; THREEMONTH; MONTH; WEEK; DAY]
}.

(** ** datamodels/gdax.go *)

Record timePeriod : Type := mkPeriod {
  tp_start : Time;
  tp_end : Time
}.

Record PricePoint : Type := mkPricePoint {
  Timestamp : Z;
  Price : string
}.

Record MyError : Type := mkError {
  Err : string;
  ErrorCode : Z
}.

Definition dailyBySeconds : Z := 86400.
Definition sixhourBySeconds : Z := 21600.
Definition hourBySeconds : Z := 3600.
Definition fifteenminuteBySeconds : Z := 900.
Definition fiveminuteBySeconds : Z := 300.
Definition minuteBySeconds : Z := 60.

Definition gdaxHistoricalEndpoint : string :=
  "https://api.gdax.com/products/BTC-USD/candles".

(** The loop of the two-year and one-year cases needs at most five tests of
    its condition; see [getIntervalPartition_total]. *)
Definition loopFuel : nat := 5.

Section Gdax.

Context {labels : IntervalLabels} {ext : Collaborators}.

Definition supportedIntervals : list string :=
  [TWOYEAR; YEAR; SIXMONTH; THREEMONTH; MONTH; WEEK; DAY].

Definition gdaxIntervalToGranularity : gmap string Z :=
  list_to_map
    [(TWOYEAR, dailyBySeconds);
     (YEAR, dailyBySeconds);
     (SIXMONTH, dailyBySeconds);
     (THREEMONTH, dailyBySeconds);
     (MONTH, sixhourBySeconds);
     (WEEK, hourBySeconds);
     (DAY, fifteenminuteBySeconds)].

(** [m[key]] on a Go map: the zero value when the key is absent. *)
Definition granularityOf (interval : string) : Z :=
  default 0 (gdaxIntervalToGranularity !! interval).

Fixpoint generalizeGdaxBuckets (buckets : list (list float64))
  : Exec (list PricePoint) :=
  match buckets with
  | [] => Returned []
  | val :: rest =>
      match val with
      | v0 :: v1 :: _ =>
          let price := FormatFloat v1 in
          run points <- generalizeGdaxBuckets rest in
          Returned (mkPricePoint (int64 v0) price :: points)
      | _ => Panicked (IndexOutOfRange 1 (Z.of_nat (length val)))
      end
  end.

Fixpoint filterBuckets (start end_ : Time) (buckets : list (list float64))
  : Exec (list (list float64)) :=
  match buckets with
  | [] => Returned []
  | bucket :: rest =>
      match bucket with
      | [] => Panicked (IndexOutOfRange 0 0)
      | b0 :: _ =>
          let timestamp := Unix (int64 b0) 0 in
          run filtered <- filterBuckets start end_ rest in
          if Before timestamp end_ && After timestamp start
             || Equal timestamp start || Equal timestamp end_
          then Returned (bucket :: filtered)
          else Returned filtered
      end
  end.

(** The query is encoded with its keys in sorted order.  [http.NewRequest]
    cannot fail on the constant method and endpoint, so the error is nil. *)
Definition buildGdaxRequest (granularity : Z) (start end_ : Time)
  : string * option string :=
  (String.append gdaxHistoricalEndpoint
     (String.append "?end="
        (String.append (formatDate end_)
           (String.append "&granularity="
              (String.append (FormatInt granularity)
                 (String.append "&start=" (formatDate start)))))),
   None).

(** The [for] loop shared by the two-year and one-year cases: one period
    of six months per step, walking back while [timeIndex] is not before
    [limit]. *)
Fixpoint sixMonthPeriods (fuel : nat) (timeIndex limit : Time)
  : option (list timePeriod) :=
  match fuel with
  | O => None
  | S fuel' =>
      if After timeIndex limit || Equal timeIndex limit then
        match sixMonthPeriods fuel' (AddDate timeIndex 0 (-6) 0) limit with
        | Some periods =>
            Some (mkPeriod timeIndex (AddDate timeIndex 0 6 0) :: periods)
        | None => None
        end
      else Some []
  end.

(** [roundedNow] is the value of [roundTime(time.Now())]. *)
Definition getIntervalPartition (fuel : nat) (roundedNow : Time)
  (interval : string) : option (list timePeriod) :=
  let nowRounded := AddDate roundedNow 0 0 1 in
  if String.eqb interval TWOYEAR then
    let twoYearsAgo := AddDate nowRounded (-2) 0 0 in
    sixMonthPeriods fuel (AddDate nowRounded 0 (-6) 0) twoYearsAgo
  else if String.eqb interval YEAR then
    let oneYearAgo := AddDate nowRounded (-1) 0 0 in
    sixMonthPeriods fuel (AddDate nowRounded 0 (-6) 0) oneYearAgo
  else if String.eqb interval SIXMONTH then
    Some [mkPeriod (AddDate nowRounded 0 (-6) 0) nowRounded]
  else if String.eqb interval THREEMONTH then
    Some [mkPeriod (AddDate nowRounded 0 (-3) 0) nowRounded]
  else if String.eqb interval MONTH then
    Some [mkPeriod (AddDate nowRounded 0 (-1) 0) nowRounded]
  else if String.eqb interval WEEK then
    let first := AddDate nowRounded 0 0 (-8) in
    let second := AddDate first 0 0 3 in
    let third := AddDate second 0 0 3 in
    let fourth := AddDate third 0 0 2 in
    Some [mkPeriod third fourth; mkPeriod second third;
          mkPeriod first second]
  else if String.eqb interval DAY then
    Some [mkPeriod (AddDate nowRounded 0 0 (-2)) nowRounded]
  else Some [].

(** What a poll does: the URLs requested, in order, and how it ended. *)
Definition Fetched (A : Type) : Type :=
  (list string * Exec (option A * option MyError))%type.

(** The body of the loop of [fetchGdaxBuckets], from the period at the head
    of [periods] on; [buckets] are the rows kept so far and [sent] the
    requests already made. *)
Fixpoint fetchPeriods (net : Transport) (granularity : Z)
  (periods : list timePeriod) (buckets : list (list float64))
  (sent : list string) : Fetched (list (list float64)) :=
  match periods with
  | [] => (sent, Returned (Some buckets, None))
  | period :: rest =>
      match buildGdaxRequest granularity (tp_start period) (tp_end period) with
      | (_, Some err) => (sent, Returned (None, Some (mkError err 0)))
      | (requestString, None) =>
          let sent' := (sent ++ [requestString])%list in
          match net sent requestString with
          | (None, Some _) => (sent', Panicked NilDereference)
          | (Some _, Some _) =>
              (sent', Returned (None,
                 Some (mkError "Failed to reach GDAX API"
                               StatusInternalServerError)))
          | (None, None) => (sent', Panicked NilDereference)
          | (Some response, None) =>
              if StatusCode response =? StatusOK then
                match decodeBuckets (Body response) with
                | DecodeFail err =>
                    (sent', Returned (None,
                       Some (mkError err StatusInternalServerError)))
                | DecodeOk tempBuckets =>
                    match filterBuckets (tp_start period) (tp_end period)
                            tempBuckets with
                    | Returned kept =>
                        fetchPeriods net granularity rest
                          (buckets ++ kept)%list sent'
                    | Panicked why => (sent', Panicked why)
                    | OutOfFuel => (sent', OutOfFuel)
                    end
                end
              else
                match decodeGdaxError (Body response) with
                | DecodeFail err =>
                    (sent', Returned (None, Some (mkError err 0)))
                | DecodeOk message =>
                    (sent', Returned (None, Some (mkError message 0)))
                end
          end
      end
  end.

Definition fetchGdaxBuckets (fuel : nat) (roundedNow : Time)
  (net : Transport) (interval : string) : Fetched (list (list float64)) :=
  match getIntervalPartition fuel roundedNow interval with
  | None => ([], OutOfFuel)
  | Some intervalPartition =>
      let granularity := granularityOf interval in
      fetchPeriods net granularity intervalPartition [] []
  end.

Definition PollGdaxHistorical (fuel : nat) (roundedNow : Time)
  (net : Transport) (interval : string) : Fetched (list PricePoint) :=
  let interval := ToUpper interval in
  if granularityOf interval =? 0 then
    ([], Returned (None,
       Some (mkError
               (String.append "Please provide a valid interval; "
                  (String.append interval " is invalid")) 400)))
  else
    match fetchGdaxBuckets fuel roundedNow net interval with
    | (sent, Returned (_, Some myerror)) =>
        (sent, Returned (None, Some myerror))
    | (sent, Returned (None, None)) =>
        (sent, Returned (Some [], None))
    | (sent, Returned (Some buckets, None)) =>
        (sent,
         run points <- generalizeGdaxBuckets buckets in
         Returned (Some points, None))
    | (sent, Panicked why) => (sent, Panicked why)
    | (sent, OutOfFuel) => (sent, OutOfFuel)
    end.

End Gdax.

(** ** Notions used in the statements *)

(** *** The calendar by day numbers and month indices *)

Definition leapDay (year : Z) : Z := if isLeap year then 1 else 0.

(** Days of the year before month [r + 1], the leap day included. *)
Definition monthOffset (leap : bool) (r : Z) : Z :=
  daysBefore r + (if leap && (3 <=? r + 1) then 1 else 0).

(** [firstOfMonth i]: the day number of the first day of the month with
    index [i = 12 * year + (month - 1)]. *)
Definition firstOfMonth (i : Z) : Z := dateToDays 0 (i + 1) 1.

(** The month index and the day of the month of a day number. *)
Definition monthIndex (D : Z) : Z :=
  let '(year, month, _) := absDate D in 12 * year + month - 1.

Definition dayOfMonth (D : Z) : Z :=
  let '(_, _, day) := absDate D in day.

(** The day number reached by [AddDate] from day number [D]. *)
Definition addDays (D years months days : Z) : Z :=
  let '(year, month, day) := absDate D in
  dateToDays (year + years) (month + months) (day + days).

(** A check of [Q] on the [n] integers from [i] on. *)
Fixpoint forallFrom (n : nat) (i : Z) (Q : Z -> bool) : bool :=
  match n with
  | O => true
  | S n' => Q i && forallFrom n' (i + 1) Q
  end.

Definition yearDayOk (leap : bool) (yday : Z) : bool :=
  let '(m, d) := yearDayToDate leap yday in
  (1 <=? m) && (m <=? 12) && (1 <=? d)
  && (monthOffset leap (m - 1) + d - 1 =? yday)
  && (yday <? monthOffset leap m).

(** Six months back, on day numbers and on instants. *)
Definition sixBackDays (D : Z) : Z := addDays D 0 (-6) 0.
Definition sixBack (t : Time) : Time := AddDate t 0 (-6) 0.

(** *** Sequences of periods *)




(** Most recent first, each period proper, no gap before the next one. *)
Inductive chained : list timePeriod -> Prop :=
| chained_nil : chained []
| chained_one r : tp_start r <= tp_end r -> chained [r]
| chained_cons r r' l :
    tp_start r <= tp_end r ->
    tp_start r' <= tp_start r ->
    tp_end r' <= tp_end r ->
    tp_start r <= tp_end r' ->
    chained (r' :: l) ->
    chained (r :: r' :: l).

Definition endsDescending (l : list timePeriod) : Prop :=
  forall i p q, l !! i = Some p -> l !! S i = Some q -> tp_end q <= tp_end p.


(** *** Rows *)

(** The instant a row is stamped with, when it has a first field. *)
Definition bucketTime (bucket : list float64) : option Time :=
  match bucket with
  | [] => None
  | b0 :: _ => Some (Unix (int64 b0) 0)
  end.

(** The test of [filterBuckets] on a row. *)
Definition keeps (start end_ : Time) (bucket : list float64) : bool :=
  match bucketTime bucket with
  | Some timestamp =>
      Before timestamp end_ && After timestamp start
      || Equal timestamp start || Equal timestamp end_
  | None => false
  end.

Definition zeroFloat : float64 := S754_zero false.

Definition wideEnough (row : list float64) : Prop := (2 <= length row)%nat.

(** *** Requests, responses and outcomes *)

(** The message of a non-success response: the decoded [Message], or the
    decoding error. *)
Definition errorText {ext : Collaborators} (response : Response) : string :=
  match decodeGdaxError (Body response) with
  | DecodeOk message => message
  | DecodeFail err => err
  end.



(** The URL requested for a period. *)
Definition requestOf (granularity : Z) (period : timePeriod) : string :=
  fst (buildGdaxRequest granularity (tp_start period) (tp_end period)).


(** A state of the loop: the periods still to fetch, the rows kept so far and
    the requests sent so far. *)
Definition LoopState : Type :=
  (list timePeriod * list (list float64) * list string)%type.

(** [loopReaches net g s s']: from state [s] the loop gets to state [s']
    through turns that all succeed (a 200 response whose body decodes and
    whose rows pass the filter). *)
Inductive loopReaches {labels : IntervalLabels} {ext : Collaborators}
  (net : Transport) (granularity : Z) : LoopState -> LoopState -> Prop :=
| reaches_here s : loopReaches net granularity s s
| reaches_turn period rest buckets sent response rows kept s' :
    net sent (requestOf granularity period) = (Some response, None) ->
    StatusCode response = StatusOK ->
    decodeBuckets (Body response) = DecodeOk rows ->
    filterBuckets (tp_start period) (tp_end period) rows = Returned kept ->
    loopReaches net granularity
      (rest, (buckets ++ kept)%list,
       (sent ++ [requestOf granularity period])%list) s' ->
    loopReaches net granularity (period :: rest, buckets, sent) s'.

Section Notions.

Context {labels : IntervalLabels} {ext : Collaborators}.

(** The start of the window each label asks for, counted back from
    [nowRounded] (the rounded clock advanced by one day). *)
Definition windowStart (interval : string) (nowRounded : Time) : Time :=
  if String.eqb interval TWOYEAR then AddDate nowRounded (-2) 0 0
  else if String.eqb interval YEAR then AddDate nowRounded (-1) 0 0
  else if String.eqb interval SIXMONTH then AddDate nowRounded 0 (-6) 0
  else if String.eqb interval THREEMONTH then AddDate nowRounded 0 (-3) 0
  else if String.eqb interval MONTH then AddDate nowRounded 0 (-1) 0
  else if String.eqb interval WEEK then nowRounded - 8 * nanosPerDay
  else nowRounded - 2 * nanosPerDay.

(** The price point of a row with at least two fields. *)
Definition toPricePoint (row : list float64) : PricePoint :=
  mkPricePoint (int64 (nth 0 row zeroFloat))
    (FormatFloat (nth 1 row zeroFloat)).

End Notions.

(** ** Sample collaborators

    The labels, decoders and transports used to run the model on concrete
    inputs.  The literal tokens are a choice made here: the package's own
    constants are not part of this file. *)

Lemma sampleLabels_distinct :
  NoDup ["2Y"; "1Y"; "6M"; "3M"; "1M"; "1W"; "1D"]%string.
Proof. apply (bool_decide_unpack _). vm_compute. reflexivity. Qed.

Definition sampleLabels : IntervalLabels :=
  {| TWOYEAR := "2Y"; YEAR := "1Y"; SIXMONTH := "6M"; THREEMONTH := "3M";
     MONTH := "1M"; WEEK := "1W"; DAY := "1D";
     labels_distinct := sampleLabels_distinct |}.

(** 1500000000 and 0.5 as binary floats. *)
Definition f_1500000000 : float64 := S754_finite false 1500000000 0.
Definition f_half : float64 := S754_finite false 1 (-1).

(** A decoder that knows three bodies: one well-formed candle, one row with
    no fields, and one error payload. *)
Definition sampleExt : Collaborators :=
  {| decodeBuckets := fun body =>
       if String.eqb body "[[1500000000,0.5]]" then
         DecodeOk [[f_1500000000; f_half]]
       else if String.eqb body "[[]]" then DecodeOk [[]]
       else DecodeFail "invalid character";
     decodeGdaxError := fun body =>
       if String.eqb body "{message:NotFound}" then DecodeOk "NotFound"%string
       else DecodeFail "unexpected end of JSON input";
     FormatFloat := fun _ => "0.5"%string |}.

(** 2017-08-30T00:00:00Z and 2017-06-14T00:00:00Z. *)
Definition aug30_2017 : Time := Unix 1504051200 0.
Definition jun14_2017 : Time := Unix 1497398400 0.


Definition netTooManyRedirects : Transport :=
  fun _ _ => (Some (mkResponse 302 EmptyString),
              Some "stopped after 10 redirects"%string).


Definition netNotFound : Transport :=
  fun _ _ => (Some (mkResponse 404 "{message:NotFound}"), None).

Definition netGarbledError : Transport :=
  fun _ _ => (Some (mkResponse 503 "<html>"), None).

(** Succeeds once, then is unreachable. *)
Definition netFailsSecond : Transport :=
  fun sent _ =>
    match sent with
    | [] => (Some (mkResponse 200 "[[1500000000,0.5]]"), None)
    | _ => (None, Some "dial tcp: connection refused"%string)
    end.



(** 2017-07-14T00:00:00Z. *)
Definition jul14_2017 : Time := Unix 1499990400 0.

(** Always answers 200 with the one well-formed candle. *)
Definition netOneCandle : Transport :=
  fun _ _ => (Some (mkResponse 200 "[[1500000000,0.5]]"), None).

(** Always answers 200 with a body that is not JSON. *)
Definition netGarbledRows : Transport :=
  fun _ _ => (Some (mkResponse 200 "<html>"), None).

(** The partition of the one-week label on 14 June 2017. *)
Definition weekOfJun14 : list timePeriod :=
  [mkPeriod (Unix 1497312000 0) (Unix 1497484800 0);
   mkPeriod (Unix 1497052800 0) (Unix 1497312000 0);
   mkPeriod (Unix 1496793600 0) (Unix 1497052800 0)].

(** * Properties *)

(** ** The calendar *)

Section Calendar.

Lemma isLeap_cases year :
  isLeap year = true /\
    year mod 4 = 0 /\ (year mod 100 <> 0 \/ year mod 400 = 0)
  \/ isLeap year = false /\
    (year mod 4 <> 0 \/ year mod 100 = 0 /\ year mod 400 <> 0).
Proof.
  unfold isLeap.
  destruct (Z.eqb_spec (year mod 4) 0), (Z.eqb_spec (year mod 100) 0),
    (Z.eqb_spec (year mod 400) 0); simpl; lia.
Qed.

Lemma daysSinceEpoch_succ year :
  daysSinceEpoch (year + 1) = daysSinceEpoch year + 365 + leapDay year.
Proof.
  unfold leapDay.
  destruct (isLeap_cases year) as [(-> & H)|(-> & H)];
    unfold daysSinceEpoch, daysPer400Years, daysPer100Years, daysPer4Years;
    cbv zeta; Z.div_mod_to_equations; lia.
Qed.

Lemma absYear_spec D :
  daysSinceEpoch (fst (absYear D)) + snd (absYear D) = D /\
  0 <= snd (absYear D) < 365 + leapDay (fst (absYear D)).
Proof.
  unfold absYear, leapDay, daysPer400Years, daysPer100Years, daysPer4Years;
    cbv zeta; simpl fst; simpl snd.
  match goal with
  | |- context [isLeap ?y] =>
      destruct (isLeap_cases y) as [(-> & H)|(-> & H)]
  end;
    unfold daysSinceEpoch, daysPer400Years, daysPer100Years, daysPer4Years;
    cbv zeta; Z.div_mod_to_equations; lia.
Qed.

Lemma norm_in_range hi lo base :
  0 <= lo < base -> norm hi lo base = (hi, lo).
Proof.
  intros H. unfold norm.
  destruct (Z.ltb_spec lo 0); [lia|].
  destruct (Z.leb_spec base lo); [lia|reflexivity].
Qed.

Lemma norm_months year m :
  norm year m 12 = (year + m / 12, m mod 12).
Proof.
  unfold norm.
  destruct (Z.ltb_spec m 0).
  - destruct (Z.leb_spec 12 (m + ((- m - 1) / 12 + 1) * 12)).
    + exfalso. Z.div_mod_to_equations. lia.
    + f_equal; Z.div_mod_to_equations; lia.
  - destruct (Z.leb_spec 12 m).
    + f_equal; Z.div_mod_to_equations; lia.
    + f_equal; Z.div_mod_to_equations; lia.
Qed.

Lemma dateToDays_firstOfMonth year month day :
  dateToDays year month day = firstOfMonth (12 * year + month - 1) + day - 1.
Proof.
  unfold firstOfMonth, dateToDays. rewrite !norm_months.
  replace (0 + (12 * year + month - 1 + 1 - 1) / 12)
    with (year + (month - 1) / 12) by (Z.div_mod_to_equations; lia).
  replace ((12 * year + month - 1 + 1 - 1) mod 12)
    with ((month - 1) mod 12) by (Z.div_mod_to_equations; lia).
  cbv zeta. lia.
Qed.

Lemma firstOfMonth_offset year r :
  0 <= r <= 12 ->
  firstOfMonth (12 * year + r) =
    daysSinceEpoch year + monthOffset (isLeap year) r.
Proof.
  intros Hr. unfold firstOfMonth, dateToDays. rewrite norm_months. cbv zeta.
  destruct (Z.eq_dec r 12) as [->|Hne].
  - replace (0 + (12 * year + 12 + 1 - 1) / 12) with (year + 1)
      by (Z.div_mod_to_equations; lia).
    replace ((12 * year + 12 + 1 - 1) mod 12) with 0
      by (Z.div_mod_to_equations; lia).
    rewrite daysSinceEpoch_succ. unfold leapDay, monthOffset.
    change (daysBefore (0 + 1 - 1)) with 0.
    change (daysBefore 12) with 365.
    change (3 <=? 0 + 1) with false. change (3 <=? 12 + 1) with true.
    rewrite andb_false_r, andb_true_r. destruct (isLeap year); lia.
  - replace (0 + (12 * year + r + 1 - 1) / 12) with year
      by (Z.div_mod_to_equations; lia).
    replace ((12 * year + r + 1 - 1) mod 12) with r
      by (Z.div_mod_to_equations; lia).
    unfold monthOffset. replace (r + 1 - 1) with r by lia.
    destruct (isLeap year && (3 <=? r + 1)); lia.
Qed.

Lemma monthOffset_step leap r :
  0 <= r <= 11 ->
  28 <= monthOffset leap (r + 1) - monthOffset leap r <= 31.
Proof.
  intros Hr.
  assert (r = 0 \/ r = 1 \/ r = 2 \/ r = 3 \/ r = 4 \/ r = 5 \/ r = 6 \/
          r = 7 \/ r = 8 \/ r = 9 \/ r = 10 \/ r = 11) as Hc by lia.
  destruct leap;
    repeat (destruct Hc as [->|Hc]; [vm_compute; split; discriminate|]);
    subst r; vm_compute; split; discriminate.
Qed.

Lemma firstOfMonth_step i :
  28 <= firstOfMonth (i + 1) - firstOfMonth i <= 31.
Proof.
  pose proof (Z.div_mod i 12 ltac:(lia)) as Hi.
  pose proof (Z.mod_pos_bound i 12 ltac:(lia)) as Hr.
  set (q := i / 12) in *. set (r := i mod 12) in *.
  clearbody q r. subst i.
  replace (12 * q + r + 1) with (12 * q + (r + 1)) by lia.
  rewrite !firstOfMonth_offset by lia.
  pose proof (monthOffset_step (isLeap q) r ltac:(lia)). lia.
Qed.

Lemma firstOfMonth_mono_nat (n : nat) i :
  firstOfMonth i + 28 * Z.of_nat n <= firstOfMonth (i + Z.of_nat n)
    <= firstOfMonth i + 31 * Z.of_nat n.
Proof.
  induction n as [|n IH].
  - replace (i + Z.of_nat 0) with i by lia. lia.
  - replace (i + Z.of_nat (S n)) with (i + Z.of_nat n + 1) by lia.
    pose proof (firstOfMonth_step (i + Z.of_nat n)). lia.
Qed.

Lemma firstOfMonth_mono i j :
  i <= j ->
  firstOfMonth i + 28 * (j - i) <= firstOfMonth j
    <= firstOfMonth i + 31 * (j - i).
Proof.
  intros H. pose proof (firstOfMonth_mono_nat (Z.to_nat (j - i)) i) as Hm.
  rewrite Z2Nat.id in Hm by lia. replace (i + (j - i)) with j in Hm by lia.
  exact Hm.
Qed.

End Calendar.

Section CalendarDates.

Lemma forallFrom_spec n : forall i Q,
  forallFrom n i Q = true ->
  forall k, i <= k < i + Z.of_nat n -> Q k = true.
Proof.
  induction n as [|n IH]; intros i Q H k Hk; [lia|].
  simpl in H. apply andb_prop in H as [H1 H2].
  destruct (Z.eq_dec k i) as [->|Hne]; [exact H1|].
  apply (IH (i + 1) Q H2). lia.
Qed.

Lemma yearDayToDate_spec (leap : bool) (yday : Z) :
  0 <= yday < 365 + (if leap then 1 else 0) ->
  let '(m, d) := yearDayToDate leap yday in
  1 <= m <= 12 /\ 1 <= d /\
  monthOffset leap (m - 1) + d - 1 = yday /\ yday < monthOffset leap m.
Proof.
  intros H.
  assert (yearDayOk leap yday = true) as Hok.
  { destruct leap.
    - apply (forallFrom_spec 366 0 (yearDayOk true)); [|lia].
      vm_compute. reflexivity.
    - apply (forallFrom_spec 365 0 (yearDayOk false)); [|lia].
      vm_compute. reflexivity. }
  unfold yearDayOk in Hok. destruct (yearDayToDate leap yday) as [m d].
  repeat (apply andb_prop in Hok as [Hok ?]). lia.
Qed.

(** [absDate] returns a date of the calendar, and it is the date of the
    day number it was given. *)
Lemma absDate_valid D :
  D = firstOfMonth (monthIndex D) + dayOfMonth D - 1 /\
  1 <= dayOfMonth D
    <= firstOfMonth (monthIndex D + 1) - firstOfMonth (monthIndex D).
Proof.
  unfold monthIndex, dayOfMonth, absDate.
  pose proof (absYear_spec D) as [Hsum Hrange].
  destruct (absYear D) as [year yday]. simpl in Hsum, Hrange.
  pose proof (yearDayToDate_spec (isLeap year) yday) as Hmd.
  unfold leapDay in Hrange.
  destruct (yearDayToDate (isLeap year) yday) as [m d].
  destruct Hmd as (Hm & Hd & Hoff & Hnext); [exact Hrange|].
  replace (12 * year + m - 1 + 1) with (12 * year + m) by lia.
  replace (12 * year + m - 1) with (12 * year + (m - 1)) by lia.
  rewrite !firstOfMonth_offset by lia. lia.
Qed.

Lemma addDays_firstOfMonth D years months days :
  addDays D years months days =
    firstOfMonth (monthIndex D + 12 * years + months)
    + dayOfMonth D + days - 1.
Proof.
  unfold addDays, monthIndex, dayOfMonth.
  destruct (absDate D) as [[year month] day].
  rewrite dateToDays_firstOfMonth.
  replace (12 * (year + years) + (month + months) - 1)
    with (12 * year + month - 1 + 12 * years + months) by lia.
  lia.
Qed.

(** A date of the calendar determines its month and day. *)
Lemma calendar_date_unique i d j e :
  firstOfMonth i + d - 1 = firstOfMonth j + e - 1 ->
  1 <= d <= firstOfMonth (i + 1) - firstOfMonth i ->
  1 <= e <= firstOfMonth (j + 1) - firstOfMonth j ->
  i = j /\ d = e.
Proof.
  intros Heq Hd He.
  destruct (Z.lt_trichotomy i j) as [Hlt|[->|Hgt]].
  - pose proof (firstOfMonth_mono (i + 1) j ltac:(lia)). lia.
  - lia.
  - pose proof (firstOfMonth_mono (j + 1) i ltac:(lia)). lia.
Qed.

Lemma addDays_days D days : addDays D 0 0 days = D + days.
Proof.
  rewrite addDays_firstOfMonth. pose proof (absDate_valid D) as [H _].
  replace (monthIndex D + 12 * 0 + 0) with (monthIndex D) by lia. lia.
Qed.

(** Where a shift by [months] months lands: in the month aimed at when it
    has the day, else at the start of the month after it. *)
Lemma addDays_months_lands D months :
  let D' := addDays D 0 months 0 in
  (monthIndex D' = monthIndex D + months /\ dayOfMonth D' = dayOfMonth D)
  \/ (monthIndex D' = monthIndex D + months + 1 /\
      dayOfMonth D' =
        dayOfMonth D - (firstOfMonth (monthIndex D + months + 1)
                        - firstOfMonth (monthIndex D + months)) /\
      dayOfMonth D' <= 3).
Proof.
  intros D'. pose proof (absDate_valid D) as [HD HdD].
  pose proof (absDate_valid D') as [HD' HdD'].
  assert (D' = firstOfMonth (monthIndex D + months) + dayOfMonth D - 1)
    as Hdef.
  { unfold D'. rewrite addDays_firstOfMonth.
    replace (monthIndex D + 12 * 0 + months) with (monthIndex D + months)
      by lia.
    lia. }
  set (i := monthIndex D) in *. set (d := dayOfMonth D) in *.
  set (j := monthIndex D') in *. set (e := dayOfMonth D') in *.
  clearbody i d j e D'.
  pose proof (firstOfMonth_step i). pose proof (firstOfMonth_step (i + months)).
  pose proof (firstOfMonth_step (i + months + 1)).
  destruct (Z_le_gt_dec d
              (firstOfMonth (i + months + 1) - firstOfMonth (i + months)))
    as [Hfit|Hover].
  - left.
    destruct (calendar_date_unique j e (i + months) d); [lia|lia|lia|].
    split; assumption.
  - right.
    destruct (calendar_date_unique j e (i + months + 1)
                (d - (firstOfMonth (i + months + 1)
                      - firstOfMonth (i + months)))) as [Hj He];
      [lia| lia | |].
    + replace (i + months + 1 + 1) with (i + months + 2) by lia.
      pose proof (firstOfMonth_step (i + months + 1)) as Hs.
      replace (i + months + 1 + 1) with (i + months + 2) in Hs by lia. lia.
    + repeat split; [exact Hj|exact He|lia].
Qed.

End CalendarDates.

Section CalendarShifts.

Lemma addDays_months D months :
  addDays D 0 months 0 =
    firstOfMonth (monthIndex D + months) + dayOfMonth D - 1.
Proof.
  rewrite addDays_firstOfMonth.
  replace (monthIndex D + 12 * 0 + months) with (monthIndex D + months)
    by lia.
  lia.
Qed.

Lemma addDays_years D years :
  addDays D years 0 0 = addDays D 0 (12 * years) 0.
Proof.
  rewrite !addDays_firstOfMonth.
  replace (monthIndex D + 12 * 0 + 12 * years)
    with (monthIndex D + 12 * years + 0) by lia.
  reflexivity.
Qed.

Lemma addDays_months_mono D a b :
  a <= b ->
  addDays D 0 a 0 + 28 * (b - a) <= addDays D 0 b 0
    <= addDays D 0 a 0 + 31 * (b - a).
Proof.
  intros H. rewrite !addDays_months.
  pose proof (firstOfMonth_mono (monthIndex D + a) (monthIndex D + b)
                ltac:(lia)).
  lia.
Qed.

Lemma addDays_zero D : addDays D 0 0 0 = D.
Proof. rewrite addDays_days. lia. Qed.

(** Six months back and six months forward again never falls short of the
    starting day, and never passes six months forward from it. *)
Lemma sixBack_sixForward D :
  D <= addDays (addDays D 0 (-6) 0) 0 6 0 <= addDays D 0 6 0.
Proof.
  pose proof (addDays_months_lands D (-6)) as Hl. cbv zeta in Hl.
  pose proof (absDate_valid D) as [HD HdD].
  pose proof (absDate_valid (addDays D 0 (-6) 0)) as [_ Hd'].
  rewrite (addDays_months (addDays D 0 (-6) 0)), (addDays_months D 6).
  set (D' := addDays D 0 (-6) 0) in *.
  set (i := monthIndex D) in *. set (d := dayOfMonth D) in *.
  set (j := monthIndex D') in *. set (e := dayOfMonth D') in *.
  clearbody i d j e D'.
  pose proof (firstOfMonth_step (i + -6)).
  pose proof (firstOfMonth_mono i (i + 6) ltac:(lia)).
  pose proof (firstOfMonth_mono (i + 1) (i + 6) ltac:(lia)).
  destruct Hl as [[Hj He]|(Hj & He & _)]; subst j.
  - replace (i + -6 + 6) with i by lia. lia.
  - replace (i + -6 + 1 + 6) with (i + 1) by lia. lia.
Qed.

(** On a day of the month up to 28 a shift by months keeps the day. *)
Lemma addDays_months_exact D months :
  dayOfMonth D <= 28 ->
  monthIndex (addDays D 0 months 0) = monthIndex D + months /\
  dayOfMonth (addDays D 0 months 0) = dayOfMonth D.
Proof.
  intros H28.
  destruct (addDays_months_lands D months) as [Hfit|(_ & He & _)];
    [exact Hfit|].
  pose proof (absDate_valid (addDays D 0 months 0)) as [_ Hd].
  pose proof (firstOfMonth_step (monthIndex D + months)). lia.
Qed.


(** *** From day numbers to instants *)

Lemma AddDate_absDays t years months days :
  AddDate t years months days =
    t + (addDays (absDays t) years months days - absDays t) * nanosPerDay.
Proof.
  unfold AddDate, addDays, absDays.
  destruct (absDate ((t / nanosPerSecond + unixToInternal) / secondsPerDay))
    as [[year month] day].
  unfold Date, nanosPerDay, nanosPerSecond, secondsPerDay, unixToInternal.
  rewrite (norm_in_range _ (t mod 1000000000)) by (apply Z.mod_pos_bound; lia).
  rewrite (norm_in_range _ (_ mod 60)) by (apply Z.mod_pos_bound; lia).
  rewrite (norm_in_range _ (_ / 60)) by (Z.div_mod_to_equations; lia).
  rewrite (norm_in_range _ (_ / 3600)) by (Z.div_mod_to_equations; lia).
  generalize (dateToDays (year + years) (month + months) (day + days)).
  intros D'. Z.div_mod_to_equations. lia.
Qed.

Lemma absDays_shift t k : absDays (t + k * nanosPerDay) = absDays t + k.
Proof.
  unfold absDays, nanosPerDay, nanosPerSecond, secondsPerDay, unixToInternal.
  Z.div_mod_to_equations. lia.
Qed.

Lemma absDays_AddDate t years months days :
  absDays (AddDate t years months days) =
    addDays (absDays t) years months days.
Proof. rewrite AddDate_absDays, absDays_shift. lia. Qed.

Lemma AddDate_days t days : AddDate t 0 0 days = t + days * nanosPerDay.
Proof. rewrite AddDate_absDays, addDays_days. f_equal. f_equal. lia. Qed.

Lemma Day_dayOfMonth t : Day t = dayOfMonth (absDays t).
Proof. reflexivity. Qed.

End CalendarShifts.

Section InstantShifts.

Lemma nanosPerDay_pos : 0 < nanosPerDay.
Proof. reflexivity. Qed.

Lemma AddDate_twice t a b c a' b' c' :
  AddDate (AddDate t a b c) a' b' c' =
    t + (addDays (addDays (absDays t) a b c) a' b' c' - absDays t)
        * nanosPerDay.
Proof.
  rewrite (AddDate_absDays (AddDate t a b c)), absDays_AddDate,
    AddDate_absDays.
  lia.
Qed.

Lemma AddDate_sixBack_le t :
  AddDate t 0 (-6) 0 + 168 * nanosPerDay <= t.
Proof.
  rewrite AddDate_absDays.
  pose proof (addDays_months_mono (absDays t) (-6) 0 ltac:(lia)) as H.
  rewrite addDays_zero in H. pose proof nanosPerDay_pos. nia.
Qed.

Lemma AddDate_sixForward_ge t : t <= AddDate t 0 6 0.
Proof.
  rewrite AddDate_absDays.
  pose proof (addDays_months_mono (absDays t) 0 6 ltac:(lia)) as H.
  rewrite addDays_zero in H. pose proof nanosPerDay_pos. nia.
Qed.

Lemma AddDate_sixBack_sixForward t :
  t <= AddDate (AddDate t 0 (-6) 0) 0 6 0 <= AddDate t 0 6 0.
Proof.
  rewrite AddDate_twice, AddDate_absDays.
  pose proof (sixBack_sixForward (absDays t)). pose proof nanosPerDay_pos.
  nia.
Qed.

Lemma AddDate_years t years :
  AddDate t years 0 0 = AddDate t 0 (12 * years) 0.
Proof. rewrite !AddDate_absDays, addDays_years. reflexivity. Qed.

Lemma AddDate_zero t : AddDate t 0 0 0 = t.
Proof. rewrite AddDate_days. lia. Qed.

Lemma AddDate_months_mono t a b :
  a <= b ->
  AddDate t 0 a 0 + 28 * (b - a) * nanosPerDay <= AddDate t 0 b 0.
Proof.
  intros H. rewrite !AddDate_absDays.
  pose proof (addDays_months_mono (absDays t) a b H).
  pose proof nanosPerDay_pos. nia.
Qed.

Lemma AddDate_months_back_bound t a :
  a <= 0 -> t + 31 * a * nanosPerDay <= AddDate t 0 a 0.
Proof.
  intros H. rewrite AddDate_absDays.
  pose proof (addDays_months_mono (absDays t) a 0 H) as Hm.
  rewrite addDays_zero in Hm. pose proof nanosPerDay_pos. nia.
Qed.


Lemma Day_AddDate_months t a : Day t <= 28 -> Day (AddDate t 0 a 0) = Day t.
Proof.
  intros H. rewrite !Day_dayOfMonth, absDays_AddDate.
  apply addDays_months_exact. exact H.
Qed.

End InstantShifts.

(** ** Sequences of periods *)

Section Chains.



Lemma chained_endsDescending l : chained l -> endsDescending l.
Proof.
  induction 1 as [|r Hr|r r' l Hr Hs He Hg Hc IH]; intros i p q Hp Hq.
  - discriminate.
  - destruct i; discriminate.
  - destruct i as [|i].
    + simpl in Hp, Hq. injection Hp as <-. injection Hq as <-. exact He.
    + apply (IH i p q); assumption.
Qed.

End Chains.

(** ** The interval partitioner *)

Section Partition.

Context {labels : IntervalLabels} {ext : Collaborators}.

Lemma labels_pairwise :
  forall i j x y,
    supportedIntervals !! i = Some x -> supportedIntervals !! j = Some y ->
    i <> j -> x <> y.
Proof.
  intros i j x y Hi Hj Hne ->.
  apply Hne. eapply NoDup_lookup; [exact labels_distinct|exact Hi|exact Hj].
Qed.

Lemma label_eqb_false i j x y :
  supportedIntervals !! i = Some x -> supportedIntervals !! j = Some y ->
  i <> j -> String.eqb x y = false.
Proof.
  intros Hi Hj Hne. apply String.eqb_neq.
  exact (labels_pairwise i j x y Hi Hj Hne).
Qed.

Lemma supported_cases interval :
  In interval supportedIntervals ->
  interval = TWOYEAR \/ interval = YEAR \/ interval = SIXMONTH \/
  interval = THREEMONTH \/ interval = MONTH \/ interval = WEEK \/
  interval = DAY.
Proof. unfold supportedIntervals. simpl. intuition auto. Qed.

(** Rewrites the tests of a [switch] on a known label. *)
Ltac switch_on n :=
  repeat match goal with
  | |- context [String.eqb ?a ?a] => rewrite (String.eqb_refl a)
  | |- context [String.eqb ?a ?b] =>
      first
        [ rewrite (label_eqb_false n 0 a b eq_refl eq_refl ltac:(discriminate))
        | rewrite (label_eqb_false n 1 a b eq_refl eq_refl ltac:(discriminate))
        | rewrite (label_eqb_false n 2 a b eq_refl eq_refl ltac:(discriminate))
        | rewrite (label_eqb_false n 3 a b eq_refl eq_refl ltac:(discriminate))
        | rewrite (label_eqb_false n 4 a b eq_refl eq_refl ltac:(discriminate))
        | rewrite (label_eqb_false n 5 a b eq_refl eq_refl ltac:(discriminate))
        | rewrite (label_eqb_false n 6 a b eq_refl eq_refl ltac:(discriminate)) ]
  end.

Lemma sixMonthPeriods_continue fuel timeIndex limit :
  limit <= timeIndex ->
  sixMonthPeriods (S fuel) timeIndex limit =
    match sixMonthPeriods fuel (AddDate timeIndex 0 (-6) 0) limit with
    | Some periods =>
        Some (mkPeriod timeIndex (AddDate timeIndex 0 6 0) :: periods)
    | None => None
    end.
Proof.
  intros H. simpl. unfold After, Equal.
  destruct (Z.ltb_spec limit timeIndex); [reflexivity|].
  destruct (Z.eqb_spec timeIndex limit); [reflexivity|lia].
Qed.

Lemma sixMonthPeriods_stop fuel timeIndex limit :
  timeIndex < limit -> sixMonthPeriods (S fuel) timeIndex limit = Some [].
Proof.
  intros H. simpl. unfold After, Equal.
  destruct (Z.ltb_spec limit timeIndex); [lia|].
  destruct (Z.eqb_spec timeIndex limit); [lia|reflexivity].
Qed.

(** The loop ends: every step walks back at least 168 days. *)
Lemma sixMonthPeriods_total (n : nat) : forall timeIndex limit,
  timeIndex - limit < Z.of_nat n * (168 * nanosPerDay) ->
  exists periods,
    forall extra, sixMonthPeriods (S n + extra) timeIndex limit = Some periods.
Proof.
  induction n as [|n IH]; intros timeIndex limit H.
  - exists []. intros extra. apply sixMonthPeriods_stop. lia.
  - destruct (Z_lt_le_dec timeIndex limit) as [Hlt|Hge].
    + exists []. intros extra. apply sixMonthPeriods_stop. exact Hlt.
    + destruct (IH (AddDate timeIndex 0 (-6) 0) limit) as [periods Hp].
      { pose proof (AddDate_sixBack_le timeIndex). lia. }
      exists (mkPeriod timeIndex (AddDate timeIndex 0 6 0) :: periods).
      intros extra.
      change (S (S n) + extra)%nat with (S (S n + extra)).
      rewrite sixMonthPeriods_continue by exact Hge.
      rewrite Hp. reflexivity.
Qed.

Lemma sixMonthPeriods_chained fuel : forall timeIndex limit periods,
  sixMonthPeriods fuel timeIndex limit = Some periods ->
  chained periods /\
  (periods = [] \/
   exists rest,
     periods = mkPeriod timeIndex (AddDate timeIndex 0 6 0) :: rest).
Proof.
  induction fuel as [|fuel IH]; intros timeIndex limit periods H;
    [discriminate|].
  destruct (Z_lt_le_dec timeIndex limit) as [Hlt|Hge].
  - rewrite sixMonthPeriods_stop in H by exact Hlt. injection H as <-.
    split; [constructor|left; reflexivity].
  - rewrite sixMonthPeriods_continue in H by exact Hge.
    destruct (sixMonthPeriods fuel (AddDate timeIndex 0 (-6) 0) limit)
      as [rest|] eqn:Hrest; [|discriminate].
    injection H as <-. destruct (IH _ _ _ Hrest) as [Hc Hhd].
    split; [|right; eexists; reflexivity].
    pose proof (AddDate_sixForward_ge timeIndex).
    destruct Hhd as [->|[rest' ->]]; [constructor; assumption|].
    pose proof (AddDate_sixBack_sixForward timeIndex).
    pose proof (AddDate_sixBack_le timeIndex). pose proof nanosPerDay_pos.
    constructor; simpl; try assumption; lia.
Qed.

Lemma getIntervalPartition_total roundedNow interval :
  exists periods,
    forall extra,
      getIntervalPartition (loopFuel + extra) roundedNow interval
        = Some periods.
Proof.
  unfold getIntervalPartition. cbv zeta.
  set (nowRounded := AddDate roundedNow 0 0 1).
  pose proof (AddDate_sixBack_le nowRounded) as Hback.
  pose proof nanosPerDay_pos as Hpos.
  destruct (String.eqb interval TWOYEAR).
  { apply (sixMonthPeriods_total 4). rewrite AddDate_years.
    pose proof (AddDate_months_back_bound nowRounded (12 * -2) ltac:(lia)).
    lia. }
  destruct (String.eqb interval YEAR).
  { apply (sixMonthPeriods_total 4). rewrite AddDate_years.
    pose proof (AddDate_months_back_bound nowRounded (12 * -1) ltac:(lia)).
    lia. }
  repeat match goal with
  | |- context [if ?b then _ else _] => destruct b
  end; eexists; intros extra; reflexivity.
Qed.

Lemma getIntervalPartition_chained fuel roundedNow interval periods :
  getIntervalPartition fuel roundedNow interval = Some periods ->
  chained periods.
Proof.
  unfold getIntervalPartition. cbv zeta.
  set (nowRounded := AddDate roundedNow 0 0 1).
  pose proof nanosPerDay_pos as Hpos.
  destruct (String.eqb interval TWOYEAR).
  { intros H. apply sixMonthPeriods_chained in H. tauto. }
  destruct (String.eqb interval YEAR).
  { intros H. apply sixMonthPeriods_chained in H. tauto. }
  destruct (String.eqb interval SIXMONTH).
  { intros [= <-]. constructor. simpl.
    pose proof (AddDate_months_mono nowRounded (-6) 0 ltac:(lia)) as H.
    rewrite AddDate_zero in H. lia. }
  destruct (String.eqb interval THREEMONTH).
  { intros [= <-]. constructor. simpl.
    pose proof (AddDate_months_mono nowRounded (-3) 0 ltac:(lia)) as H.
    rewrite AddDate_zero in H. lia. }
  destruct (String.eqb interval MONTH).
  { intros [= <-]. constructor. simpl.
    pose proof (AddDate_months_mono nowRounded (-1) 0 ltac:(lia)) as H.
    rewrite AddDate_zero in H. lia. }
  destruct (String.eqb interval WEEK).
  { intros [= <-]. rewrite !AddDate_days.
    repeat (constructor; simpl; try lia). }
  destruct (String.eqb interval DAY).
  { intros [= <-]. rewrite !AddDate_days. constructor. simpl. lia. }
  intros [= <-]. constructor.
Qed.

(** The first test of the loop succeeds: six months back is not before a
    year or two back. *)
Lemma sixMonthPeriods_nonempty fuel nowRounded years periods :
  years <= -1 ->
  sixMonthPeriods fuel (AddDate nowRounded 0 (-6) 0)
    (AddDate nowRounded years 0 0) = Some periods ->
  periods <> [].
Proof.
  intros Hy H. destruct fuel as [|fuel]; [discriminate|].
  rewrite sixMonthPeriods_continue in H.
  - destruct (sixMonthPeriods fuel _ _); [|discriminate].
    injection H as <-. discriminate.
  - rewrite AddDate_years.
    pose proof (AddDate_months_mono nowRounded (12 * years) (-6) ltac:(lia)).
    pose proof nanosPerDay_pos. nia.
Qed.

Lemma getIntervalPartition_nonempty fuel roundedNow interval periods :
  In interval supportedIntervals ->
  getIntervalPartition fuel roundedNow interval = Some periods ->
  periods <> [].
Proof.
  intros Hin. apply supported_cases in Hin.
  unfold getIntervalPartition. cbv zeta.
  destruct Hin as [->|[->|[->|[->|[->|[->| ->]]]]]].
  - switch_on 0%nat. apply sixMonthPeriods_nonempty. lia.
  - switch_on 1%nat. apply sixMonthPeriods_nonempty. lia.
  - switch_on 2%nat. intros [= <-]. discriminate.
  - switch_on 3%nat. intros [= <-]. discriminate.
  - switch_on 4%nat. intros [= <-]. discriminate.
  - switch_on 5%nat. intros [= <-]. discriminate.
  - switch_on 6%nat. intros [= <-]. discriminate.
Qed.

End Partition.

(** ** The partition of each label *)

Section PartitionShape.

Context {labels : IntervalLabels} {ext : Collaborators}.






Lemma week_shape fuel roundedNow :
  let nowRounded := AddDate roundedNow 0 0 1 in
  getIntervalPartition fuel roundedNow WEEK =
    Some [mkPeriod (nowRounded - 2 * nanosPerDay) nowRounded;
          mkPeriod (nowRounded - 5 * nanosPerDay)
                   (nowRounded - 2 * nanosPerDay);
          mkPeriod (nowRounded - 8 * nanosPerDay)
                   (nowRounded - 5 * nanosPerDay)].
Proof.
  intros nowRounded. unfold getIntervalPartition. cbv zeta.
  fold nowRounded.
  rewrite (label_eqb_false 5 0 WEEK TWOYEAR eq_refl eq_refl) by discriminate.
  rewrite (label_eqb_false 5 1 WEEK YEAR eq_refl eq_refl) by discriminate.
  rewrite (label_eqb_false 5 2 WEEK SIXMONTH eq_refl eq_refl)
    by discriminate.
  rewrite (label_eqb_false 5 3 WEEK THREEMONTH eq_refl eq_refl)
    by discriminate.
  rewrite (label_eqb_false 5 4 WEEK MONTH eq_refl eq_refl) by discriminate.
  rewrite String.eqb_refl, !AddDate_days.
  repeat f_equal; lia.
Qed.

Lemma day_shape fuel roundedNow :
  let nowRounded := AddDate roundedNow 0 0 1 in
  getIntervalPartition fuel roundedNow DAY =
    Some [mkPeriod (nowRounded - 2 * nanosPerDay) nowRounded].
Proof.
  intros nowRounded. unfold getIntervalPartition. cbv zeta.
  fold nowRounded.
  rewrite (label_eqb_false 6 0 DAY TWOYEAR eq_refl eq_refl) by discriminate.
  rewrite (label_eqb_false 6 1 DAY YEAR eq_refl eq_refl) by discriminate.
  rewrite (label_eqb_false 6 2 DAY SIXMONTH eq_refl eq_refl) by discriminate.
  rewrite (label_eqb_false 6 3 DAY THREEMONTH eq_refl eq_refl)
    by discriminate.
  rewrite (label_eqb_false 6 4 DAY MONTH eq_refl eq_refl) by discriminate.
  rewrite (label_eqb_false 6 5 DAY WEEK eq_refl eq_refl) by discriminate.
  rewrite String.eqb_refl, !AddDate_days.
  repeat f_equal; lia.
Qed.


End PartitionShape.

(** ** Rows: filtering and normalisation *)

Section Rows.

Context {labels : IntervalLabels} {ext : Collaborators}.

Lemma filterBuckets_filter start end_ buckets :
  Forall (fun bucket => bucket <> []) buckets ->
  filterBuckets start end_ buckets
    = Returned (List.filter (keeps start end_) buckets).
Proof.
  induction 1 as [|bucket rest Hne Hrest IH]; [reflexivity|].
  destruct bucket as [|b0 fields]; [congruence|].
  simpl. rewrite IH. simpl. unfold keeps. simpl.
  destruct (_ || _); reflexivity.
Qed.

Lemma keeps_window start end_ bucket timestamp :
  start <= end_ ->
  bucketTime bucket = Some timestamp ->
  keeps start end_ bucket = true <-> start <= timestamp <= end_.
Proof.
  intros Hle Ht. unfold keeps, Before, After, Equal. rewrite Ht.
  destruct (Z.ltb_spec timestamp end_), (Z.ltb_spec start timestamp),
    (Z.eqb_spec timestamp start), (Z.eqb_spec timestamp end_); simpl;
    split; intros; try lia; try reflexivity; try discriminate.
Qed.

Lemma wideEnough_nonempty rows :
  Forall wideEnough rows -> Forall (fun bucket => bucket <> []) rows.
Proof.
  intros H. eapply Forall_impl; [exact H|].
  intros [|v0 fields] Hw; [unfold wideEnough in Hw; simpl in Hw; lia|].
  discriminate.
Qed.

Lemma filter_wideEnough f rows :
  Forall wideEnough rows -> Forall wideEnough (List.filter f rows).
Proof.
  intros H. apply Forall_forall. intros row Hin.
  apply list_elem_of_In in Hin. apply List.filter_In in Hin as [Hin _].
  rewrite Forall_forall in H. apply H. apply list_elem_of_In. exact Hin.
Qed.

Lemma generalizeGdaxBuckets_map buckets :
  Forall wideEnough buckets ->
  generalizeGdaxBuckets buckets = Returned (map toPricePoint buckets).
Proof.
  induction 1 as [|row rest Hrow Hrest IH]; [reflexivity|].
  destruct row as [|v0 [|v1 fields]];
    try (unfold wideEnough in Hrow; simpl in Hrow; lia).
  simpl. rewrite IH. reflexivity.
Qed.

Lemma generalizeGdaxBuckets_short buckets :
  Exists (fun row => (length row < 2)%nat) buckets ->
  exists why, generalizeGdaxBuckets buckets = Panicked why.
Proof.
  induction buckets as [|row rest IH]; intros H.
  - inversion H.
  - destruct row as [|v0 [|v1 fields]].
    + eexists. reflexivity.
    + eexists. reflexivity.
    + apply Exists_cons in H as [H|H]; [simpl in H; lia|].
      destruct (IH H) as [why Hwhy]. exists why. simpl. rewrite Hwhy.
      reflexivity.
Qed.

End Rows.

(** ** The granularity table and the fetch loop *)

Section Fetch.

Context {labels : IntervalLabels} {ext : Collaborators}.

Lemma granularityOf_unsupported interval :
  ~ In interval supportedIntervals -> granularityOf interval = 0.
Proof.
  intros H. unfold granularityOf, gdaxIntervalToGranularity.
  rewrite (not_elem_of_list_to_map_1 _ interval); [reflexivity|].
  intros Hin. apply H. apply list_elem_of_In. exact Hin.
Qed.

Lemma granularityOf_supported interval :
  In interval supportedIntervals -> granularityOf interval <> 0.
Proof.
  intros H. unfold granularityOf, gdaxIntervalToGranularity.
  assert (exists g, gdaxIntervalToGranularity !! interval = Some g /\ g <> 0)
    as (g & Hg & Hne).
  { apply supported_cases in H.
    destruct H as [->|[->|[->|[->|[->|[->| ->]]]]]]; eexists;
      (split;
       [apply elem_of_list_to_map_1;
        [exact labels_distinct
        |apply list_elem_of_In; simpl; eauto 10]|discriminate]). }
  unfold gdaxIntervalToGranularity in Hg. rewrite Hg. exact Hne.
Qed.

Lemma granularityOf_zero_iff interval :
  granularityOf interval = 0 <-> ~ In interval supportedIntervals.
Proof.
  split.
  - intros H Hin. exact (granularityOf_supported interval Hin H).
  - apply granularityOf_unsupported.
Qed.

Lemma classic_supported interval :
  In interval supportedIntervals \/ ~ In interval supportedIntervals.
Proof.
  destruct (In_dec String.string_dec interval supportedIntervals);
    [left|right]; assumption.
Qed.

(** One turn of the loop. *)
Lemma fetchPeriods_step net granularity period rest buckets sent :
  fetchPeriods net granularity (period :: rest) buckets sent =
    let url := requestOf granularity period in
    let sent' := (sent ++ [url])%list in
    match net sent url with
    | (None, _) => (sent', Panicked NilDereference)
    | (Some _, Some _) =>
        (sent', Returned (None,
           Some (mkError "Failed to reach GDAX API"
                         StatusInternalServerError)))
    | (Some response, None) =>
        if StatusCode response =? StatusOK then
          match decodeBuckets (Body response) with
          | DecodeFail err =>
              (sent', Returned (None,
                 Some (mkError err StatusInternalServerError)))
          | DecodeOk tempBuckets =>
              match filterBuckets (tp_start period) (tp_end period)
                      tempBuckets with
              | Returned kept =>
                  fetchPeriods net granularity rest
                    (buckets ++ kept)%list sent'
              | Panicked why => (sent', Panicked why)
              | OutOfFuel => (sent', OutOfFuel)
              end
          end
        else (sent', Returned (None, Some (mkError (errorText response) 0)))
    end.
Proof.
  unfold requestOf, errorText. simpl.
  destruct (net sent _) as [[response|] [err|]]; try reflexivity.
  destruct (StatusCode response =? StatusOK); [reflexivity|].
  destruct (decodeGdaxError (Body response)); reflexivity.
Qed.

(** A response that is not 200 ends the loop with the exchange's message,
    or with the error of decoding it. *)
Lemma fetchPeriods_non_success net granularity period rest buckets sent
    response :
  net sent (requestOf granularity period) = (Some response, None) ->
  StatusCode response <> StatusOK ->
  fetchPeriods net granularity (period :: rest) buckets sent
    = ((sent ++ [requestOf granularity period])%list,
       Returned (None, Some (mkError (errorText response) 0))).
Proof.
  intros Hnet Hstatus. rewrite fetchPeriods_step. cbv zeta. rewrite Hnet.
  destruct (Z.eqb_spec (StatusCode response) StatusOK);
    [contradiction|reflexivity].
Qed.

(** A transport error without a response: [response.Body] is read on a nil
    pointer. *)
Lemma fetchPeriods_nil_response net granularity period rest buckets sent
    err :
  net sent (requestOf granularity period) = (None, err) ->
  fetchPeriods net granularity (period :: rest) buckets sent
    = ((sent ++ [requestOf granularity period])%list,
       Panicked NilDereference).
Proof.
  intros Hnet. rewrite fetchPeriods_step. cbv zeta. rewrite Hnet.
  reflexivity.
Qed.

(** A transport error that carries a response. *)
Lemma fetchPeriods_error_with_response net granularity period rest buckets
    sent response err :
  net sent (requestOf granularity period) = (Some response, Some err) ->
  fetchPeriods net granularity (period :: rest) buckets sent
    = ((sent ++ [requestOf granularity period])%list,
       Returned (None, Some (mkError "Failed to reach GDAX API"
                                     StatusInternalServerError))).
Proof.
  intros Hnet. rewrite fetchPeriods_step. cbv zeta. rewrite Hnet.
  reflexivity.
Qed.


End Fetch.

(** ** The loop of fetchGdaxBuckets, turn by turn *)

Section Poll.

Context {labels : IntervalLabels} {ext : Collaborators}.

Lemma fetchPeriods_reaches net granularity s s' :
  loopReaches net granularity s s' ->
  fetchPeriods net granularity (fst (fst s)) (snd (fst s)) (snd s)
    = fetchPeriods net granularity (fst (fst s')) (snd (fst s')) (snd s').
Proof.
  induction 1 as [s|period rest buckets sent response rows kept s'
                     Hnet Hstatus Hdec Hfilter Hreach IH];
    [reflexivity|].
  simpl fst in *. simpl snd in *.
  rewrite fetchPeriods_step. cbv zeta. rewrite Hnet, Hstatus.
  change (StatusOK =? StatusOK) with true. cbv iota.
  rewrite Hdec, Hfilter. exact IH.
Qed.



Lemma Poll_unsupported fuel roundedNow net interval :
  ~ In (ToUpper interval) supportedIntervals ->
  PollGdaxHistorical fuel roundedNow net interval =
    ([], Returned (None,
       Some (mkError
               (String.append "Please provide a valid interval; "
                  (String.append (ToUpper interval) " is invalid")) 400))).
Proof.
  intros H. unfold PollGdaxHistorical. cbv zeta.
  rewrite granularityOf_unsupported by exact H. reflexivity.
Qed.

(** On a supported label the poll is the loop over the partition followed
    by the normaliser. *)
Lemma Poll_supported fuel roundedNow net interval periods :
  In (ToUpper interval) supportedIntervals ->
  getIntervalPartition fuel roundedNow (ToUpper interval) = Some periods ->
  PollGdaxHistorical fuel roundedNow net interval =
    match fetchPeriods net (granularityOf (ToUpper interval)) periods [] []
    with
    | (sent, Returned (_, Some myerror)) =>
        (sent, Returned (None, Some myerror))
    | (sent, Returned (None, None)) => (sent, Returned (Some [], None))
    | (sent, Returned (Some buckets, None)) =>
        (sent,
         run points <- generalizeGdaxBuckets buckets in
         Returned (Some points, None))
    | (sent, Panicked why) => (sent, Panicked why)
    | (sent, OutOfFuel) => (sent, OutOfFuel)
    end.
Proof.
  intros Hin Hp. unfold PollGdaxHistorical. cbv zeta.
  destruct (Z.eqb_spec (granularityOf (ToUpper interval)) 0) as [H0|_].
  - exfalso. exact (granularityOf_supported _ Hin H0).
  - unfold fetchGdaxBuckets. rewrite Hp. reflexivity.
Qed.

Lemma int64_truncates (sign : bool) m e :
  let numerator := if sign then - Z.pos m else Z.pos m in
  e < 0 ->
  minInt64 <= Z.quot numerator (2 ^ (- e)) <= maxInt64 ->
  int64 (S754_finite sign m e) = Z.quot numerator (2 ^ (- e)).
Proof.
  intros numerator He Hrange. unfold int64.
  destruct (Z.leb_spec 0 e); [lia|].
  assert (0 < 2 ^ (- e)) as Hpow by (apply Z.pow_pos_nonneg; lia).
  assert ((if sign then - (Z.pos m / 2 ^ (- e)) else Z.pos m / 2 ^ (- e))
          = Z.quot numerator (2 ^ (- e))) as ->.
  { unfold numerator. destruct sign.
    - rewrite Z.quot_opp_l by lia. rewrite Z.quot_div_nonneg by lia.
      reflexivity.
    - rewrite Z.quot_div_nonneg by lia. reflexivity. }
  destruct (Z.leb_spec minInt64 (Z.quot numerator (2 ^ (- e)))); [|lia].
  destruct (Z.leb_spec (Z.quot numerator (2 ^ (- e))) maxInt64); [|lia].
  reflexivity.
Qed.

End Poll.

(** * The claims *)

Section Claims.

Context {labels : IntervalLabels} {ext : Collaborators}.




(** C4.  For every label the sequence returned by the partitioner is in
    reverse chronological order: the end of each period is at or after the
    end of the period that follows it. *)
Theorem partition_ends_descending roundedNow interval extra :
  exists periods,
    getIntervalPartition (loopFuel + extra) roundedNow interval
      = Some periods /\
    forall i p q,
      periods !! i = Some p -> periods !! S i = Some q ->
      tp_end q <= tp_end p.
Proof.
  destruct (getIntervalPartition_total roundedNow interval)
    as [periods Hp].
  exists periods. split; [apply Hp|].
  apply chained_endsDescending.
  exact (getIntervalPartition_chained _ _ _ _ (Hp extra)).
Qed.


(** C8.  A response whose status is not 200, met at any turn of the fetch
    loop, ends the fetch: the body is decoded as an error payload and the
    poll returns its message as the error, or the decoding error when the
    payload does not decode; no price series is returned. *)
Theorem non_success_status_aborts extra roundedNow net interval periods
    period rest buckets sent response :
  let granularity := granularityOf (ToUpper interval) in
  In (ToUpper interval) supportedIntervals ->
  getIntervalPartition (loopFuel + extra) roundedNow (ToUpper interval)
    = Some periods ->
  loopReaches net granularity (periods, [], [])
    (period :: rest, buckets, sent) ->
  net sent (requestOf granularity period) = (Some response, None) ->
  StatusCode response <> StatusOK ->
  fetchGdaxBuckets (loopFuel + extra) roundedNow net (ToUpper interval)
    = ((sent ++ [requestOf granularity period])%list,
       Returned (None,
         Some (mkError
                 match decodeGdaxError (Body response) with
                 | DecodeOk message => message
                 | DecodeFail err => err
                 end 0)))
  /\ PollGdaxHistorical (loopFuel + extra) roundedNow net interval
    = ((sent ++ [requestOf granularity period])%list,
       Returned (None,
         Some (mkError
                 match decodeGdaxError (Body response) with
                 | DecodeOk message => message
                 | DecodeFail err => err
                 end 0))).
Proof.
  cbv zeta. intros Hin Hp Hreach Hnet Hstatus.
  pose proof (fetchPeriods_reaches _ _ _ _ Hreach) as Hrun.
  cbn [fst snd] in Hrun.
  rewrite (fetchPeriods_non_success _ _ _ _ _ _ response Hnet Hstatus)
    in Hrun.
  split.
  - unfold fetchGdaxBuckets. rewrite Hp. exact Hrun.
  - rewrite (Poll_supported _ _ _ _ periods Hin Hp).
    rewrite Hrun. reflexivity.
Qed.


(** C10.  On rows of at least two fields [generalizeGdaxBuckets] returns
    a series of the same length whose i-th point carries the first field of
    the i-th row converted to int64 (the conversion discards the fraction)
    and the formatted second field; a row of fewer than two fields makes
    the indexing panic. *)
Theorem generalizeGdaxBuckets_total buckets :
  (Forall wideEnough buckets ->
   exists points,
     generalizeGdaxBuckets buckets = Returned points /\
     length points = length buckets /\
     forall (i : nat) row,
       buckets !! i = Some row ->
       exists v0 v1 fields,
         row = v0 :: v1 :: fields /\
         points !! i = Some (mkPricePoint (int64 v0) (FormatFloat v1)))
  /\ (Exists (fun row => (length row < 2)%nat) buckets ->
      exists why, generalizeGdaxBuckets buckets = Panicked why)
  /\ (forall (sign : bool) m e,
        e < 0 ->
        let numerator := if sign then - Z.pos m else Z.pos m in
        minInt64 <= Z.quot numerator (2 ^ (- e)) <= maxInt64 ->
        int64 (S754_finite sign m e) = Z.quot numerator (2 ^ (- e))).
Proof.
  split; [|split].
  - intros Hwide. exists (map toPricePoint buckets).
    split; [apply generalizeGdaxBuckets_map; exact Hwide|].
    split; [apply length_map|].
    intros i row Hi.
    rewrite Forall_forall in Hwide.
    pose proof (Hwide row (list_elem_of_lookup_2 _ _ _ Hi)) as Hrow.
    destruct row as [|v0 [|v1 fields]];
      try (unfold wideEnough in Hrow; simpl in Hrow; lia).
    exists v0, v1, fields. split; [reflexivity|].
    rewrite list_lookup_fmap, Hi. reflexivity.
  - apply generalizeGdaxBuckets_short.
  - intros sign m e He numerator Hrange.
    apply int64_truncates; assumption.
Qed.

End Claims.

(** * The claims on concrete inputs *)



(** The one-year window drifts when [nowRounded] falls on the 31st: from
    30 August 2017 the periods run from 3 September 2016 to 3 September
    2017, while the window asked for runs from 31 August to 31 August. *)
Example one_year_from_the_31st :
  getIntervalPartition (labels := sampleLabels) loopFuel aug30_2017 "1Y"
    = Some [mkPeriod (Unix 1488499200 0) (Unix 1504396800 0);
            mkPeriod (Unix 1472860800 0) (Unix 1488499200 0)]
  /\ AddDate aug30_2017 0 0 1 = Unix 1504137600 0
  /\ windowStart (labels := sampleLabels) "1Y" (AddDate aug30_2017 0 0 1)
     = Unix 1472601600 0.
Proof. repeat split; vm_compute; reflexivity. Qed.



(** C5: the transport fails on the second of the three requests of the
    one-week label, with no response, as [http.Get] does when the endpoint
    cannot be reached.  The poll does not return the transport error: it
    panics on [response.Body]. *)
Theorem transport_failure_panics :
  PollGdaxHistorical (labels := sampleLabels) (ext := sampleExt) loopFuel
    jun14_2017 netFailsSecond "1w"
  = ([requestOf 3600 (mkPeriod (Unix 1497312000 0) (Unix 1497484800 0));
      requestOf 3600 (mkPeriod (Unix 1497052800 0) (Unix 1497312000 0))],
     Panicked NilDereference).
Proof. vm_compute. reflexivity. Qed.

(** The transport error is returned when the failed request comes with a
    response, as after too many redirects. *)
Example transport_error_with_response :
  snd (PollGdaxHistorical (labels := sampleLabels) (ext := sampleExt)
         loopFuel jun14_2017 netTooManyRedirects "1w")
  = Returned (None, Some (mkError "Failed to reach GDAX API" 500)).
Proof. vm_compute. reflexivity. Qed.


Lemma non_success_status_aborts_witness :
  PollGdaxHistorical (labels := sampleLabels) (ext := sampleExt)
    (loopFuel + 0) jun14_2017 netNotFound "1w"
  = ([requestOf 3600 (mkPeriod (Unix 1497312000 0) (Unix 1497484800 0))],
     Returned (None, Some (mkError "NotFound" 0))).
Proof.
  destruct (non_success_status_aborts (labels := sampleLabels)
              (ext := sampleExt) 0 jun14_2017 netNotFound "1w"
              [mkPeriod (Unix 1497312000 0) (Unix 1497484800 0);
               mkPeriod (Unix 1497052800 0) (Unix 1497312000 0);
               mkPeriod (Unix 1496793600 0) (Unix 1497052800 0)]
              (mkPeriod (Unix 1497312000 0) (Unix 1497484800 0))
              [mkPeriod (Unix 1497052800 0) (Unix 1497312000 0);
               mkPeriod (Unix 1496793600 0) (Unix 1497052800 0)]
              [] [] (mkResponse 404 "{message:NotFound}"))
    as [_ Hpoll].
  { vm_compute. tauto. }
  { vm_compute. reflexivity. }
  { apply reaches_here. }
  { reflexivity. }
  { vm_compute. discriminate. }
  exact Hpoll.
Defined.



Lemma generalizeGdaxBuckets_total_witness :
  generalizeGdaxBuckets (ext := sampleExt) [[f_1500000000; f_half]]
    = Returned [mkPricePoint 1500000000 "0.5"].
Proof.
  destruct (generalizeGdaxBuckets_total (ext := sampleExt)
              [[f_1500000000; f_half]]) as [Htotal _].
  destruct Htotal as (points & Hpoints & Hlen & Hrow).
  { repeat constructor. }
  destruct (Hrow 0%nat [f_1500000000; f_half] eq_refl)
    as (v0 & v1 & fields & Heq & Hpoint).
  injection Heq as <- <- <-.
  destruct points as [|point [|point' points]]; try discriminate Hlen.
  injection Hpoint as ->. exact Hpoints.
Defined.

(** * Further properties of the package *)

(** ** Rows *)

Section MoreRows.

Context {labels : IntervalLabels} {ext : Collaborators}.

Lemma filterBuckets_returned start end_ buckets kept :
  filterBuckets start end_ buckets = Returned kept ->
  Forall (fun bucket => bucket <> []) buckets /\
  kept = List.filter (keeps start end_) buckets.
Proof.
  revert kept. induction buckets as [|bucket rest IH]; intros kept H.
  - injection H as <-. split; [constructor|reflexivity].
  - destruct bucket as [|b0 fields]; [discriminate|].
    simpl in H.
    destruct (filterBuckets start end_ rest) as [filtered| |] eqn:Hrest;
      try discriminate.
    destruct (IH filtered eq_refl) as [Hne ->].
    split; [constructor; [discriminate|exact Hne]|].
    simpl in H. cbn [List.filter]. unfold keeps at 1. cbn [bucketTime].
    destruct (_ || _); injection H as <-; reflexivity.
Qed.

Lemma filterBuckets_never_out_of_fuel start end_ buckets :
  filterBuckets start end_ buckets <> OutOfFuel.
Proof.
  induction buckets as [|bucket rest IH]; [discriminate|].
  destruct bucket as [|b0 fields]; [discriminate|].
  simpl. destruct (filterBuckets start end_ rest) as [filtered|why|]; simpl.
  - destruct (_ || _); discriminate.
  - discriminate.
  - congruence.
Qed.

Lemma filter_twice {A : Type} (f : A -> bool) (l : list A) :
  List.filter f (List.filter f l) = List.filter f l.
Proof.
  induction l as [|x l IH]; [reflexivity|].
  simpl. destruct (f x) eqn:Hx; [|exact IH].
  simpl. rewrite Hx, IH. reflexivity.
Qed.

Lemma filter_sublist {A : Type} (f : A -> bool) (l : list A) :
  sublist (List.filter f l) l.
Proof.
  induction l as [|x l IH]; [constructor|].
  simpl. destruct (f x); [apply sublist_skip|apply sublist_cons]; exact IH.
Qed.

(** X1.  A row without fields anywhere in the input makes [filterBuckets]
    panic on [bucket[0]], whatever the other rows are. *)
Theorem filterBuckets_panics_on_empty_row start end_ buckets :
  In [] buckets ->
  filterBuckets start end_ buckets = Panicked (IndexOutOfRange 0 0).
Proof.
  induction buckets as [|bucket rest IH]; intros Hin; [destruct Hin|].
  destruct bucket as [|b0 fields]; [reflexivity|].
  destruct Hin as [Heq|Hin]; [discriminate|].
  simpl. rewrite (IH Hin). reflexivity.
Qed.

(** X2.  When [filterBuckets] returns, what it returns is a subsequence of
    its input (no row added, none reordered), and filtering the result again
    with the same bounds gives it back unchanged. *)
Theorem filterBuckets_subsequence_idempotent start end_ buckets kept :
  filterBuckets start end_ buckets = Returned kept ->
  sublist kept buckets /\
  filterBuckets start end_ kept = Returned kept.
Proof.
  intros H. destruct (filterBuckets_returned _ _ _ _ H) as [Hne ->].
  split; [apply filter_sublist|].
  rewrite filterBuckets_filter.
  - rewrite filter_twice. reflexivity.
  - apply Forall_forall. intros row Hin.
    apply list_elem_of_In in Hin. apply List.filter_In in Hin as [Hin _].
    rewrite Forall_forall in Hne. apply Hne. apply list_elem_of_In.
    exact Hin.
Qed.


(** X4.  Only the first two fields of a row matter to the normaliser: it
    behaves the same, panics included, on the rows cut to two fields. *)
Theorem generalizeGdaxBuckets_first_two_fields buckets :
  generalizeGdaxBuckets (map (firstn 2) buckets)
    = generalizeGdaxBuckets buckets.
Proof.
  induction buckets as [|row rest IH]; [reflexivity|].
  destruct row as [|v0 [|v1 fields]]; try reflexivity.
  simpl. simpl in IH. rewrite IH. reflexivity.
Qed.

(** X5.  Normalising a concatenation is normalising each part in turn and
    concatenating the series; a panic in either part is the panic of the
    whole. *)
Theorem generalizeGdaxBuckets_app first second :
  generalizeGdaxBuckets (first ++ second)%list =
    run points <- generalizeGdaxBuckets first in
    run points' <- generalizeGdaxBuckets second in
    Returned (points ++ points')%list.
Proof.
  induction first as [|row rest IH].
  - simpl. destruct (generalizeGdaxBuckets second); reflexivity.
  - destruct row as [|v0 [|v1 fields]]; try reflexivity.
    simpl. rewrite IH.
    destruct (generalizeGdaxBuckets rest); try reflexivity.
    simpl. destruct (generalizeGdaxBuckets second); reflexivity.
Qed.

Lemma generalizeGdaxBuckets_returned buckets points :
  generalizeGdaxBuckets buckets = Returned points ->
  Forall wideEnough buckets /\ points = map toPricePoint buckets.
Proof.
  revert points. induction buckets as [|row rest IH]; intros points H.
  - injection H as <-. split; [constructor|reflexivity].
  - destruct row as [|v0 [|v1 fields]]; try discriminate.
    simpl in H.
    destruct (generalizeGdaxBuckets rest) as [tail| |]; try discriminate.
    destruct (IH tail eq_refl) as [Hwide ->]. injection H as <-.
    split; [|reflexivity].
    constructor; [unfold wideEnough; simpl; lia|exact Hwide].
Qed.

End MoreRows.

Lemma filterBuckets_panics_on_empty_row_witness :
  filterBuckets 0 1 [[f_half]; []] = Panicked (IndexOutOfRange 0 0).
Proof.
  apply (filterBuckets_panics_on_empty_row 0 1 [[f_half]; []]).
  right. left. reflexivity.
Defined.

Lemma filterBuckets_subsequence_idempotent_witness :
  filterBuckets (Unix 0 0) (Unix 1 0) [[f_half]; [f_1500000000]]
    = Returned [[f_half]] /\
  sublist [[f_half]] [[f_half]; [f_1500000000]] /\
  filterBuckets (Unix 0 0) (Unix 1 0) [[f_half]] = Returned [[f_half]].
Proof.
  split; [reflexivity|].
  apply (filterBuckets_subsequence_idempotent (Unix 0 0) (Unix 1 0)
           [[f_half]; [f_1500000000]] [[f_half]]).
  reflexivity.
Defined.


(** ** The fetch loop and the poll *)

Section MoreFetch.

Context {labels : IntervalLabels} {ext : Collaborators}.

Lemma chained_proper periods :
  chained periods ->
  forall period, In period periods -> tp_start period <= tp_end period.
Proof.
  induction 1 as [|r Hr|r r' l Hr Hs He Hg Hc IH]; intros period Hin.
  - destruct Hin.
  - destruct Hin as [<-|[]]. exact Hr.
  - destruct Hin as [<-|Hin]; [exact Hr|]. apply IH. exact Hin.
Qed.



(** The loop ends by returning rows, by returning an error, or by a panic;
    it never returns both, never returns neither. *)
Lemma fetchPeriods_outcome net granularity : forall periods buckets sent,
  (exists rows,
     snd (fetchPeriods net granularity periods buckets sent)
       = Returned (Some rows, None))
  \/ (exists err,
        snd (fetchPeriods net granularity periods buckets sent)
          = Returned (None, Some err) /\
        (ErrorCode err = 0 \/ ErrorCode err = StatusInternalServerError))
  \/ (exists why,
        snd (fetchPeriods net granularity periods buckets sent)
          = Panicked why).
Proof.
  induction periods as [|period rest IH]; intros buckets sent.
  - left. eexists. reflexivity.
  - rewrite fetchPeriods_step. cbv zeta.
    destruct (net sent (requestOf granularity period))
      as [[response|] [err|]].
    + right. left. eexists. split; [reflexivity|right; reflexivity].
    + destruct (StatusCode response =? StatusOK).
      * destruct (decodeBuckets (Body response)) as [rows|err].
        -- destruct (filterBuckets _ _ rows) as [kept|why|] eqn:Hf.
           ++ apply IH.
           ++ right. right. eexists. reflexivity.
           ++ apply filterBuckets_never_out_of_fuel in Hf. destruct Hf.
        -- right. left. eexists. split; [reflexivity|right; reflexivity].
      * right. left. eexists. split; [reflexivity|left; reflexivity].
    + right. right. eexists. reflexivity.
    + right. right. eexists. reflexivity.
Qed.

(** The requests of the loop: one per period, in the order of the periods,
    up to the turn at which the loop ends. *)
Lemma fetchPeriods_requests net granularity : forall periods buckets sent,
  exists k : nat,
    (k <= length periods)%nat /\
    fst (fetchPeriods net granularity periods buckets sent)
      = (sent ++ map (requestOf granularity) (firstn k periods))%list /\
    (periods <> [] -> (1 <= k)%nat) /\
    (forall rows,
       snd (fetchPeriods net granularity periods buckets sent)
         = Returned (Some rows, None) ->
       k = length periods).
Proof.
  induction periods as [|period rest IH]; intros buckets sent.
  - exists 0%nat. simpl. rewrite app_nil_r.
    repeat split; [lia|congruence].
  - rewrite fetchPeriods_step. cbv zeta.
    assert (forall outcome
                   : Exec (option (list (list float64)) * option MyError),
              (forall rows, outcome <> Returned (Some rows, None)) ->
              exists k : nat,
                (k <= length (period :: rest))%nat /\
                fst ((sent ++ [requestOf granularity period])%list, outcome)
                  = (sent ++ map (requestOf granularity)
                               (firstn k (period :: rest)))%list /\
                (period :: rest <> [] -> (1 <= k)%nat) /\
                (forall rows : list (list float64),
                   snd ((sent ++ [requestOf granularity period])%list,
                        outcome)
                     = Returned (Some rows, None) ->
                   k = length (period :: rest))) as Hend.
    { intros outcome Hfail. exists 1%nat. simpl.
      repeat split; [lia|lia|]. intros rows H. destruct (Hfail rows H). }
    destruct (net sent (requestOf granularity period))
      as [[response|] [err|]]; try (apply Hend; intros rows; discriminate).
    destruct (StatusCode response =? StatusOK);
      [|apply Hend; intros rows; discriminate].
    destruct (decodeBuckets (Body response)) as [rows|err];
      [|apply Hend; intros rows; discriminate].
    destruct (filterBuckets _ _ rows) as [kept|why|];
      try (apply Hend; intros rows'; discriminate).
    destruct (IH (buckets ++ kept)%list
                (sent ++ [requestOf granularity period])%list)
      as (k & Hk & Hsent & _ & Hall).
    exists (S k). simpl. rewrite Hsent, <- app_assoc. simpl.
    repeat split; [lia|lia|].
    intros rows' H. rewrite (Hall rows' H). reflexivity.
Qed.

(** The rows the loop returns: those it started with and rows that passed
    the filter of one of the periods. *)
Lemma fetchPeriods_rows net granularity : forall periods buckets sent rows,
  snd (fetchPeriods net granularity periods buckets sent)
    = Returned (Some rows, None) ->
  forall row,
    In row rows ->
    In row buckets \/
    exists period,
      In period periods /\
      keeps (tp_start period) (tp_end period) row = true.
Proof.
  induction periods as [|period rest IH]; intros buckets sent rows H row Hin.
  - injection H as <-. left. exact Hin.
  - rewrite fetchPeriods_step in H. cbv zeta in H.
    destruct (net sent (requestOf granularity period))
      as [[response|] [err|]]; try discriminate.
    destruct (StatusCode response =? StatusOK); [|discriminate].
    destruct (decodeBuckets (Body response)) as [decoded|err];
      [|discriminate].
    destruct (filterBuckets _ _ decoded) as [kept|why|] eqn:Hf;
      try discriminate.
    destruct (IH _ _ _ H row Hin) as [Hold|(p & Hp & Hk)].
    + apply in_app_or in Hold as [Hold|Hnew]; [left; exact Hold|].
      right. exists period. split; [left; reflexivity|].
      destruct (filterBuckets_returned _ _ _ _ Hf) as [_ ->].
      apply List.filter_In in Hnew as [_ Hk]. exact Hk.
    + right. exists p. split; [right; exact Hp|exact Hk].
Qed.

End MoreFetch.

Section MorePoll.

Context {labels : IntervalLabels} {ext : Collaborators}.

(** On a supported label the poll sends what the loop sends, succeeds only
    when the loop returned rows that normalise, and fails with the loop's
    error. *)
Lemma Poll_after_fetch fuel roundedNow net interval periods :
  In (ToUpper interval) supportedIntervals ->
  getIntervalPartition fuel roundedNow (ToUpper interval) = Some periods ->
  let fetched :=
    fetchPeriods net (granularityOf (ToUpper interval)) periods [] [] in
  fst (PollGdaxHistorical fuel roundedNow net interval) = fst fetched /\
  (forall points,
     snd (PollGdaxHistorical fuel roundedNow net interval)
       = Returned (Some points, None) ->
     exists rows,
       snd fetched = Returned (Some rows, None) /\
       generalizeGdaxBuckets rows = Returned points) /\
  (forall err,
     snd (PollGdaxHistorical fuel roundedNow net interval)
       = Returned (None, Some err) ->
     snd fetched = Returned (None, Some err)).
Proof.
  intros Hin Hp fetched. rewrite (Poll_supported _ _ _ _ periods Hin Hp).
  fold fetched.
  destruct (fetchPeriods_outcome net (granularityOf (ToUpper interval))
              periods [] []) as [[rows H]|[(err & H & _)|[why H]]];
    fold fetched in H; destruct fetched as [sent outcome]; simpl in H;
    subst outcome; simpl.
  - split; [reflexivity|]. split.
    + intros points Hpoints. exists rows. split; [reflexivity|].
      destruct (generalizeGdaxBuckets rows); simpl in Hpoints; congruence.
    + intros err Herr.
      destruct (generalizeGdaxBuckets rows); simpl in Herr; discriminate.
  - split; [reflexivity|]. split; [discriminate|].
    intros e He. injection He as <-. reflexivity.
  - split; [reflexivity|]. split; discriminate.
Qed.


(** X7.  The poll sends no request exactly when the upper-cased label is not
    a supported interval. *)
Theorem poll_sends_nothing_iff_unsupported extra roundedNow net interval :
  fst (PollGdaxHistorical (loopFuel + extra) roundedNow net interval) = []
  <-> ~ In (ToUpper interval) supportedIntervals.
Proof.
  split.
  - intros Hnone Hin.
    destruct (getIntervalPartition_total roundedNow (ToUpper interval))
      as [periods Hp].
    specialize (Hp extra).
    destruct (Poll_after_fetch _ _ net interval periods Hin Hp)
      as (Hsent & _ & _).
    destruct (fetchPeriods_requests net (granularityOf (ToUpper interval))
                periods [] []) as (k & Hk & Hreq & Hone & _).
    pose proof (getIntervalPartition_nonempty _ _ _ _ Hin Hp) as Hne.
    specialize (Hone Hne). rewrite Hsent, Hreq in Hnone.
    destruct periods as [|period rest]; [congruence|].
    destruct k as [|k]; [lia|]. discriminate Hnone.
  - intros Hout. rewrite Poll_unsupported by exact Hout. reflexivity.
Qed.

(** X8.  Every price point of a series the poll returns is stamped within
    one of the periods of the partition, boundaries included. *)
Theorem poll_points_within_periods extra roundedNow net interval periods
    points :
  In (ToUpper interval) supportedIntervals ->
  getIntervalPartition (loopFuel + extra) roundedNow (ToUpper interval)
    = Some periods ->
  snd (PollGdaxHistorical (loopFuel + extra) roundedNow net interval)
    = Returned (Some points, None) ->
  forall point,
    In point points ->
    exists period,
      In period periods /\
      tp_start period <= Unix (Timestamp point) 0 <= tp_end period.
Proof.
  intros Hin Hp Hpoints point Hpoint.
  destruct (Poll_after_fetch _ _ net interval periods Hin Hp)
    as (_ & Hok & _).
  destruct (Hok points Hpoints) as (rows & Hrows & Hgen).
  destruct (generalizeGdaxBuckets_returned rows points Hgen) as [Hwide ->].
  apply in_map_iff in Hpoint as (row & <- & Hrow).
  destruct (fetchPeriods_rows _ _ _ _ _ _ Hrows row Hrow)
    as [[]|(period & Hperiod & Hkeeps)].
  exists period. split; [exact Hperiod|].
  pose proof (chained_proper periods
                (getIntervalPartition_chained _ _ _ _ Hp) period Hperiod)
    as Hproper.
  rewrite Forall_forall in Hwide.
  pose proof (Hwide row ltac:(apply list_elem_of_In; exact Hrow)) as Hw.
  destruct row as [|v0 [|v1 fields]];
    try (unfold wideEnough in Hw; simpl in Hw; lia).
  apply (keeps_window (tp_start period) (tp_end period)
           (v0 :: v1 :: fields) (Unix (int64 v0) 0) Hproper eq_refl).
  exact Hkeeps.
Qed.

(** X9.  An error returned by the poll carries code 400 exactly when the
    label is not supported; every other error carries 500 (transport and
    decoding of a 200 body) or no code (the exchange's own errors). *)
Theorem poll_error_codes extra roundedNow net interval err :
  snd (PollGdaxHistorical (loopFuel + extra) roundedNow net interval)
    = Returned (None, Some err) ->
  (ErrorCode err = 400 <-> ~ In (ToUpper interval) supportedIntervals) /\
  (ErrorCode err = 0 \/ ErrorCode err = 400 \/ ErrorCode err = 500).
Proof.
  intros Herr.
  destruct (classic_supported (ToUpper interval)) as [Hin|Hout].
  - destruct (getIntervalPartition_total roundedNow (ToUpper interval))
      as [periods Hp].
    destruct (Poll_after_fetch _ _ net interval periods Hin (Hp extra))
      as (_ & _ & Hfail).
    specialize (Hfail err Herr).
    destruct (fetchPeriods_outcome net (granularityOf (ToUpper interval))
                periods [] []) as [[rows H]|[(e & H & Hcode)|[why H]]];
      rewrite H in Hfail; try discriminate.
    injection Hfail as <-. unfold StatusInternalServerError in Hcode.
    split; [|lia]. split; [lia|]. intros Hout. destruct (Hout Hin).
  - rewrite Poll_unsupported in Herr by exact Hout. injection Herr as <-.
    simpl. split; [|lia]. split; [intros _; exact Hout|reflexivity].
Qed.

(** X10.  A 200 response whose body does not decode as rows, met at any
    turn of the loop, ends the poll with the decoder's error and code 500:
    the rows of the earlier turns are dropped. *)
Theorem decode_failure_aborts extra roundedNow net interval periods period
    rest buckets sent response err :
  let granularity := granularityOf (ToUpper interval) in
  In (ToUpper interval) supportedIntervals ->
  getIntervalPartition (loopFuel + extra) roundedNow (ToUpper interval)
    = Some periods ->
  loopReaches net granularity (periods, [], [])
    (period :: rest, buckets, sent) ->
  net sent (requestOf granularity period) = (Some response, None) ->
  StatusCode response = StatusOK ->
  decodeBuckets (Body response) = DecodeFail err ->
  PollGdaxHistorical (loopFuel + extra) roundedNow net interval
    = ((sent ++ [requestOf granularity period])%list,
       Returned (None, Some (mkError err 500))).
Proof.
  cbv zeta. intros Hin Hp Hreach Hnet Hstatus Hdec.
  pose proof (fetchPeriods_reaches _ _ _ _ Hreach) as Hrun.
  cbn [fst snd] in Hrun.
  rewrite (Poll_supported _ _ _ _ periods Hin Hp), Hrun, fetchPeriods_step.
  cbv zeta. rewrite Hnet, Hstatus. change (StatusOK =? StatusOK) with true.
  cbv iota. rewrite Hdec. reflexivity.
Qed.

(** X11.  A GET that fails but still carries a response, met at any turn of
    the loop, ends the poll with the error "Failed to reach GDAX API" and
    code 500. *)
Theorem transport_error_with_response_aborts extra roundedNow net interval
    periods period rest buckets sent response err :
  let granularity := granularityOf (ToUpper interval) in
  In (ToUpper interval) supportedIntervals ->
  getIntervalPartition (loopFuel + extra) roundedNow (ToUpper interval)
    = Some periods ->
  loopReaches net granularity (periods, [], [])
    (period :: rest, buckets, sent) ->
  net sent (requestOf granularity period) = (Some response, Some err) ->
  PollGdaxHistorical (loopFuel + extra) roundedNow net interval
    = ((sent ++ [requestOf granularity period])%list,
       Returned (None, Some (mkError "Failed to reach GDAX API" 500))).
Proof.
  cbv zeta. intros Hin Hp Hreach Hnet.
  pose proof (fetchPeriods_reaches _ _ _ _ Hreach) as Hrun.
  cbn [fst snd] in Hrun.
  rewrite (Poll_supported _ _ _ _ periods Hin Hp), Hrun.
  rewrite (fetchPeriods_error_with_response _ _ _ _ _ _ response err Hnet).
  reflexivity.
Qed.

(** X12.  A GET that hands back no response, met at any turn of the loop,
    makes the poll panic on the nil response after the request was sent. *)
Theorem nil_response_panics extra roundedNow net interval periods period
    rest buckets sent err :
  let granularity := granularityOf (ToUpper interval) in
  In (ToUpper interval) supportedIntervals ->
  getIntervalPartition (loopFuel + extra) roundedNow (ToUpper interval)
    = Some periods ->
  loopReaches net granularity (periods, [], [])
    (period :: rest, buckets, sent) ->
  net sent (requestOf granularity period) = (None, err) ->
  PollGdaxHistorical (loopFuel + extra) roundedNow net interval
    = ((sent ++ [requestOf granularity period])%list,
       Panicked NilDereference).
Proof.
  cbv zeta. intros Hin Hp Hreach Hnet.
  pose proof (fetchPeriods_reaches _ _ _ _ Hreach) as Hrun.
  cbn [fst snd] in Hrun.
  rewrite (Poll_supported _ _ _ _ periods Hin Hp), Hrun.
  rewrite (fetchPeriods_nil_response _ _ _ _ _ _ err Hnet).
  reflexivity.
Qed.

Lemma fetchPeriods_all_success net granularity
    (bodyOf : string -> string) (rowsOf : string -> list (list float64)) :
  (forall sent url,
     net sent url = (Some (mkResponse StatusOK (bodyOf url)), None)) ->
  (forall url, decodeBuckets (bodyOf url) = DecodeOk (rowsOf url)) ->
  (forall url, Forall (fun bucket => bucket <> []) (rowsOf url)) ->
  forall periods buckets sent,
    fetchPeriods net granularity periods buckets sent =
      ((sent ++ map (requestOf granularity) periods)%list,
       Returned
         (Some (buckets ++
                concat
                  (map (fun period =>
                          List.filter
                            (keeps (tp_start period) (tp_end period))
                            (rowsOf (requestOf granularity period)))
                       periods))%list,
          None)).
Proof.
  intros Hnet Hdec Hne. induction periods as [|period rest IH];
    intros buckets sent.
  - simpl. rewrite !app_nil_r. reflexivity.
  - rewrite fetchPeriods_step. cbv zeta. rewrite Hnet. simpl StatusCode.
    change (StatusOK =? StatusOK) with true. cbv iota. simpl Body.
    rewrite Hdec, filterBuckets_filter by apply Hne.
    rewrite IH. simpl. rewrite <- !app_assoc. reflexivity.
Qed.

(** X13.  When every GET answers 200 with a body that decodes to rows of at
    least two fields, the poll sends one request per period and returns the
    rows of each answer that pass the filter of its period, normalised and
    concatenated in the order of the partition. *)
Theorem poll_all_success extra roundedNow net interval periods
    (bodyOf : string -> string) (rowsOf : string -> list (list float64)) :
  let granularity := granularityOf (ToUpper interval) in
  In (ToUpper interval) supportedIntervals ->
  getIntervalPartition (loopFuel + extra) roundedNow (ToUpper interval)
    = Some periods ->
  (forall sent url,
     net sent url = (Some (mkResponse StatusOK (bodyOf url)), None)) ->
  (forall url, decodeBuckets (bodyOf url) = DecodeOk (rowsOf url)) ->
  (forall url, Forall wideEnough (rowsOf url)) ->
  PollGdaxHistorical (loopFuel + extra) roundedNow net interval =
    (map (requestOf granularity) periods,
     Returned
       (Some (map toPricePoint
                (concat
                   (map (fun period =>
                           List.filter
                             (keeps (tp_start period) (tp_end period))
                             (rowsOf (requestOf granularity period)))
                        periods))),
        None)).
Proof.
  cbv zeta. intros Hin Hp Hnet Hdec Hwide.
  rewrite (Poll_supported _ _ _ _ periods Hin Hp).
  rewrite (fetchPeriods_all_success net _ bodyOf rowsOf Hnet Hdec)
    by (intros url; apply wideEnough_nonempty; apply Hwide).
  simpl. rewrite generalizeGdaxBuckets_map; [reflexivity|].
  apply Forall_concat. apply Forall_forall. intros rows Hrows.
  apply list_elem_of_In in Hrows.
  apply in_map_iff in Hrows as (period & <- & _).
  apply filter_wideEnough. apply Hwide.
Qed.

End MorePoll.

(** ** The granularity table and the partition, label by label *)

(** Settles the tests of a [switch] on the label at position [n] of the
    supported intervals. *)
Ltac on_label n :=
  repeat match goal with
  | |- context [String.eqb ?a ?a] => rewrite (String.eqb_refl a)
  | |- context [String.eqb ?a ?b] =>
      first
        [ rewrite (label_eqb_false n 0 a b eq_refl eq_refl ltac:(discriminate))
        | rewrite (label_eqb_false n 1 a b eq_refl eq_refl ltac:(discriminate))
        | rewrite (label_eqb_false n 2 a b eq_refl eq_refl ltac:(discriminate))
        | rewrite (label_eqb_false n 3 a b eq_refl eq_refl ltac:(discriminate))
        | rewrite (label_eqb_false n 4 a b eq_refl eq_refl ltac:(discriminate))
        | rewrite (label_eqb_false n 5 a b eq_refl eq_refl ltac:(discriminate))
        | rewrite (label_eqb_false n 6 a b eq_refl eq_refl ltac:(discriminate))
        ]
  end.

Section MorePartition.

Context {labels : IntervalLabels} {ext : Collaborators}.

Lemma granularityOf_listed interval granularity :
  In (interval, granularity)
     [(TWOYEAR, dailyBySeconds); (YEAR, dailyBySeconds);
      (SIXMONTH, dailyBySeconds); (THREEMONTH, dailyBySeconds);
      (MONTH, sixhourBySeconds); (WEEK, hourBySeconds);
      (DAY, fifteenminuteBySeconds)] ->
  granularityOf interval = granularity.
Proof.
  intros Hin. unfold granularityOf, gdaxIntervalToGranularity.
  erewrite elem_of_list_to_map_1; [reflexivity|exact labels_distinct|].
  apply list_elem_of_In. exact Hin.
Qed.

Lemma granularity_values :
  granularityOf TWOYEAR = 86400 /\
  granularityOf YEAR = 86400 /\
  granularityOf SIXMONTH = 86400 /\
  granularityOf THREEMONTH = 86400 /\
  granularityOf MONTH = 21600 /\
  granularityOf WEEK = 3600 /\
  granularityOf DAY = 900.
Proof. repeat split; apply granularityOf_listed; simpl; tauto. Qed.

(** X14.  The table gives one granularity to each supported label: a day
    for the two-year, one-year, six-month and three-month labels, six hours
    for the month, an hour for the week, fifteen minutes for the day; any
    other label reads as zero. *)
Theorem granularity_table :
  granularityOf TWOYEAR = 86400 /\
  granularityOf YEAR = 86400 /\
  granularityOf SIXMONTH = 86400 /\
  granularityOf THREEMONTH = 86400 /\
  granularityOf MONTH = 21600 /\
  granularityOf WEEK = 3600 /\
  granularityOf DAY = 900 /\
  forall interval,
    granularityOf interval = 0 <-> ~ In interval supportedIntervals.
Proof.
  destruct granularity_values as (G2 & G1 & G6 & G3 & Gm & Gw & Gd).
  repeat split; try assumption; apply granularityOf_zero_iff.
Qed.

Lemma getIntervalPartition_by_label fuel roundedNow :
  let nowRounded := AddDate roundedNow 0 0 1 in
  getIntervalPartition fuel roundedNow TWOYEAR
    = sixMonthPeriods fuel (AddDate nowRounded 0 (-6) 0)
        (AddDate nowRounded (-2) 0 0) /\
  getIntervalPartition fuel roundedNow YEAR
    = sixMonthPeriods fuel (AddDate nowRounded 0 (-6) 0)
        (AddDate nowRounded (-1) 0 0) /\
  getIntervalPartition fuel roundedNow SIXMONTH
    = Some [mkPeriod (AddDate nowRounded 0 (-6) 0) nowRounded] /\
  getIntervalPartition fuel roundedNow THREEMONTH
    = Some [mkPeriod (AddDate nowRounded 0 (-3) 0) nowRounded] /\
  getIntervalPartition fuel roundedNow MONTH
    = Some [mkPeriod (AddDate nowRounded 0 (-1) 0) nowRounded].
Proof.
  intros nowRounded. unfold getIntervalPartition. cbv zeta. fold nowRounded.
  split; [on_label 0%nat; reflexivity|].
  split; [on_label 1%nat; reflexivity|].
  split; [on_label 2%nat; reflexivity|].
  split; [on_label 3%nat; reflexivity|].
  on_label 4%nat. reflexivity.
Qed.

Lemma AddDate_months_forward_bound t a :
  0 <= a -> AddDate t 0 a 0 <= t + 31 * a * nanosPerDay.
Proof.
  intros H. rewrite AddDate_absDays.
  pose proof (addDays_months_mono (absDays t) 0 a H) as Hm.
  rewrite addDays_zero in Hm. pose proof nanosPerDay_pos. nia.
Qed.

Lemma sixMonthPeriods_members fuel : forall timeIndex limit periods,
  sixMonthPeriods fuel timeIndex limit = Some periods ->
  forall period,
    In period periods ->
    exists t, period = mkPeriod t (AddDate t 0 6 0) /\
      exists k : Z, t = timeIndex + k * nanosPerDay.
Proof.
  induction fuel as [|fuel IH]; intros timeIndex limit periods H period Hin;
    [discriminate|].
  destruct (Z_lt_le_dec timeIndex limit) as [Hlt|Hge].
  - rewrite sixMonthPeriods_stop in H by exact Hlt. injection H as <-.
    destruct Hin.
  - rewrite sixMonthPeriods_continue in H by exact Hge.
    destruct (sixMonthPeriods fuel (AddDate timeIndex 0 (-6) 0) limit)
      as [rest|] eqn:Hrest; [|discriminate].
    injection H as <-. destruct Hin as [<-|Hin].
    + exists timeIndex. split; [reflexivity|]. exists 0. lia.
    + destruct (IH _ _ _ Hrest period Hin) as (t & Hp & k & Hk).
      exists t. split; [exact Hp|].
      rewrite AddDate_absDays in Hk. eexists. rewrite Hk.
      rewrite <- Z.add_assoc, <- Z.mul_add_distr_r. reflexivity.
Qed.

(** X15.  No request asks for more than 200 candles: every period of the
    partition of a supported label is proper and spans at most 200 times
    the label's granularity. *)
Theorem periods_within_200_candles extra roundedNow interval periods period :
  In interval supportedIntervals ->
  getIntervalPartition (loopFuel + extra) roundedNow interval
    = Some periods ->
  In period periods ->
  0 <= tp_end period - tp_start period
    <= 200 * (granularityOf interval * nanosPerSecond).
Proof.
  intros Hin Hp Hperiod.
  pose proof (chained_proper periods
                (getIntervalPartition_chained _ _ _ _ Hp) period Hperiod)
    as Hproper.
  split; [lia|].
  destruct granularity_values as (G2 & G1 & G6 & G3 & Gm & Gw & Gd).
  destruct (getIntervalPartition_by_label (loopFuel + extra) roundedNow)
    as (P2 & P1 & P6 & P3 & Pm).
  pose proof (week_shape (loopFuel + extra) roundedNow) as Pw.
  pose proof (day_shape (loopFuel + extra) roundedNow) as Pd.
  cbv zeta in *.
  set (nowRounded := AddDate roundedNow 0 0 1) in *.
  pose proof (AddDate_months_back_bound nowRounded (-6) ltac:(lia)).
  pose proof (AddDate_months_back_bound nowRounded (-3) ltac:(lia)).
  pose proof (AddDate_months_back_bound nowRounded (-1) ltac:(lia)).
  unfold nanosPerDay, secondsPerDay, nanosPerSecond in *.
  apply supported_cases in Hin.
  destruct Hin as [->|[->|[->|[->|[->|[->| ->]]]]]].
  - rewrite P2 in Hp.
    destruct (sixMonthPeriods_members _ _ _ _ Hp period Hperiod)
      as (t & -> & _).
    pose proof (AddDate_months_forward_bound t 6 ltac:(lia)) as Hf.
    unfold nanosPerDay, secondsPerDay, nanosPerSecond in Hf.
    rewrite G2. simpl. lia.
  - rewrite P1 in Hp.
    destruct (sixMonthPeriods_members _ _ _ _ Hp period Hperiod)
      as (t & -> & _).
    pose proof (AddDate_months_forward_bound t 6 ltac:(lia)) as Hf.
    unfold nanosPerDay, secondsPerDay, nanosPerSecond in Hf.
    rewrite G1. simpl. lia.
  - rewrite P6 in Hp. injection Hp as <-. destruct Hperiod as [<-|[]].
    rewrite G6. simpl. lia.
  - rewrite P3 in Hp. injection Hp as <-. destruct Hperiod as [<-|[]].
    rewrite G3. simpl. lia.
  - rewrite Pm in Hp. injection Hp as <-. destruct Hperiod as [<-|[]].
    rewrite Gm. simpl. lia.
  - rewrite Pw in Hp. injection Hp as <-.
    rewrite Gw. destruct Hperiod as [<-|[<-|[<-|[]]]]; simpl; lia.
  - rewrite Pd in Hp. injection Hp as <-. destruct Hperiod as [<-|[]].
    rewrite Gd. simpl. lia.
Qed.


End MorePartition.

(** ** How many periods each label has *)

Section PartitionSizes.

Context {labels : IntervalLabels} {ext : Collaborators}.

#[local] Opaque AddDate addDays.

Lemma monthOffset_other_year (leap leap' : bool) r :
  0 <= r <= 11 ->
  monthOffset leap (r + 1) - monthOffset leap r - 1
    <= monthOffset leap' (r + 1) - monthOffset leap' r.
Proof.
  intros Hr.
  assert (r = 0 \/ r = 1 \/ r = 2 \/ r = 3 \/ r = 4 \/ r = 5 \/ r = 6 \/
          r = 7 \/ r = 8 \/ r = 9 \/ r = 10 \/ r = 11) as Hc by lia.
  destruct leap, leap';
    repeat (destruct Hc as [->|Hc]; [vm_compute; discriminate|]);
    subst r; vm_compute; discriminate.
Qed.

(** A month has, in another year, at most one day less. *)
Lemma month_length_other_year i j :
  firstOfMonth (i + 1) - firstOfMonth i - 1
    <= firstOfMonth (i + 12 * j + 1) - firstOfMonth (i + 12 * j).
Proof.
  pose proof (Z.div_mod i 12 ltac:(lia)) as Hi.
  pose proof (Z.mod_pos_bound i 12 ltac:(lia)) as Hr.
  set (q := i / 12) in *. set (r := i mod 12) in *.
  clearbody q r. subst i.
  replace (12 * q + r + 12 * j + 1) with (12 * (q + j) + (r + 1)) by lia.
  replace (12 * q + r + 12 * j) with (12 * (q + j) + r) by lia.
  replace (12 * q + r + 1) with (12 * q + (r + 1)) by lia.
  rewrite !firstOfMonth_offset by lia.
  pose proof (monthOffset_other_year (isLeap q) (isLeap (q + j)) r
                ltac:(lia)).
  lia.
Qed.

(** After any number of steps back the walk is in the month aimed at, on
    the day it started from, or has slipped once into the first days of the
    month after it. *)
Lemma sixBackDays_lands D (k : nat) :
  let Dk := Nat.iter k sixBackDays D in
  (monthIndex Dk = monthIndex D - 6 * Z.of_nat k /\
   dayOfMonth Dk = dayOfMonth D)
  \/ (monthIndex Dk = monthIndex D - 6 * Z.of_nat k + 1 /\
      1 <= dayOfMonth Dk <= 3).
Proof.
  induction k as [|k IH]; cbv zeta in *.
  - left. simpl. split; [lia|reflexivity].
  - simpl Nat.iter. set (Dk := Nat.iter k sixBackDays D) in *.
    pose proof (addDays_months_lands Dk (-6)) as Hl. cbv zeta in Hl.
    fold (sixBackDays Dk) in Hl.
    pose proof (absDate_valid (sixBackDays Dk)) as [_ Hv].
    pose proof (firstOfMonth_step (monthIndex Dk + -6)) as Hs.
    destruct IH as [[Hi Hd]|[Hi Hd]];
      destruct Hl as [[Hi' Hd']|(Hi' & Hd' & Hle)].
    + left. split; lia.
    + right. split; lia.
    + right. split; lia.
    + lia.
Qed.

Lemma sixBackDays_around_limit D years (k : nat) :
  1 <= years ->
  Z.of_nat k = 2 * years ->
  addDays D (- years) 0 0 <= Nat.iter k sixBackDays D /\
  Nat.iter (S k) sixBackDays D < addDays D (- years) 0 0.
Proof.
  intros Hy Hk. rewrite addDays_firstOfMonth.
  pose proof (absDate_valid D) as [_ HvD].
  pose proof (absDate_valid (Nat.iter k sixBackDays D)) as [Hk1 Hk2].
  pose proof (absDate_valid (Nat.iter (S k) sixBackDays D)) as [HS1 HS2].
  pose proof (sixBackDays_lands D k) as Jk. cbv zeta in Jk.
  pose proof (sixBackDays_lands D (S k)) as JS. cbv zeta in JS.
  set (Dk := Nat.iter k sixBackDays D) in *.
  set (DS := Nat.iter (S k) sixBackDays D) in *.
  set (i := monthIndex D) in *. set (d := dayOfMonth D) in *.
  replace (i + 12 * - years + 0) with (i - 12 * years) by lia.
  replace (i - 6 * Z.of_nat k) with (i - 12 * years) in Jk by lia.
  replace (i - 6 * Z.of_nat (S k)) with (i - 12 * years - 6) in JS by lia.
  pose proof (month_length_other_year i (- years)) as Hlen.
  replace (i + 12 * - years + 1) with (i - 12 * years + 1) in Hlen by lia.
  replace (i + 12 * - years) with (i - 12 * years) in Hlen by lia.
  pose proof (firstOfMonth_mono (i - 12 * years - 6) (i - 12 * years)
                ltac:(lia)) as Hm6.
  pose proof (firstOfMonth_mono (i - 12 * years - 6 + 1) (i - 12 * years)
                ltac:(lia)) as Hm5.
  split.
  - destruct Jk as [[Hi Hd]|[Hi Hd]]; rewrite Hi in Hk1; lia.
  - destruct JS as [[Hi Hd]|[Hi Hd]]; rewrite Hi in HS1; lia.
Qed.

Lemma sixBack_iter t (k : nat) :
  Nat.iter k sixBack t =
    t + (Nat.iter k sixBackDays (absDays t) - absDays t) * nanosPerDay /\
  absDays (Nat.iter k sixBack t) = Nat.iter k sixBackDays (absDays t).
Proof.
  induction k as [|k [IH1 IH2]].
  - simpl. split; [lia|reflexivity].
  - simpl Nat.iter. unfold sixBack at 1 3.
    rewrite absDays_AddDate, AddDate_absDays, IH2.
    fold (sixBackDays (Nat.iter k sixBackDays (absDays t))).
    split; [rewrite IH1; lia|reflexivity].
Qed.

Lemma sixBack_iter_le t (k : nat) : Nat.iter k sixBack t <= t.
Proof.
  induction k as [|k IH]; [simpl; lia|].
  change (Nat.iter (S k) sixBack t) with (sixBack (Nat.iter k sixBack t)).
  pose proof (AddDate_sixBack_le (Nat.iter k sixBack t)) as Hstep.
  fold (sixBack (Nat.iter k sixBack t)) in Hstep.
  pose proof nanosPerDay_pos. lia.
Qed.

(** The loop yields one period per step that is not before the limit. *)
Lemma sixMonthPeriods_count (n : nat) : forall fuel timeIndex limit,
  (S n < fuel)%nat ->
  limit <= Nat.iter n sixBack timeIndex ->
  Nat.iter (S n) sixBack timeIndex < limit ->
  exists periods,
    sixMonthPeriods fuel timeIndex limit = Some periods /\
    length periods = S n.
Proof.
  induction n as [|n IH]; intros fuel timeIndex limit Hfuel Hge Hlt.
  - destruct fuel as [|[|fuel]]; try lia.
    change (Nat.iter 0 sixBack timeIndex) with timeIndex in Hge.
    change (Nat.iter 1 sixBack timeIndex)
      with (AddDate timeIndex 0 (-6) 0) in Hlt.
    rewrite sixMonthPeriods_continue by exact Hge.
    rewrite sixMonthPeriods_stop by exact Hlt.
    eexists. split; reflexivity.
  - destruct fuel as [|fuel]; [lia|].
    rewrite Nat.iter_succ_r in Hge. rewrite (Nat.iter_succ_r (S n)) in Hlt.
    pose proof (sixBack_iter_le (sixBack timeIndex) n) as Hdown.
    pose proof (AddDate_sixBack_le timeIndex) as Hstep.
    fold (sixBack timeIndex) in Hstep.
    pose proof nanosPerDay_pos.
    rewrite sixMonthPeriods_continue by lia.
    fold (sixBack timeIndex).
    destruct (IH fuel (sixBack timeIndex) limit ltac:(lia) Hge Hlt)
      as (periods & Hp & Hlen).
    rewrite Hp. eexists. split; [reflexivity|].
    rewrite length_cons, Hlen. reflexivity.
Qed.

Lemma sixMonthPeriods_years years (n : nat) nowRounded extra :
  1 <= years ->
  Z.of_nat (S n) = 2 * years ->
  exists periods,
    sixMonthPeriods (S (S n) + extra) (AddDate nowRounded 0 (-6) 0)
      (AddDate nowRounded (- years) 0 0) = Some periods /\
    length periods = S n.
Proof.
  intros Hy Hn. apply sixMonthPeriods_count; [lia| |].
  - change (AddDate nowRounded 0 (-6) 0) with (sixBack nowRounded).
    rewrite <- Nat.iter_succ_r.
    destruct (sixBack_iter nowRounded (S n)) as [-> _].
    rewrite AddDate_absDays.
    destruct (sixBackDays_around_limit (absDays nowRounded) years (S n)
                Hy Hn) as [Hlow _].
    apply Z.add_le_mono_l. apply Z.mul_le_mono_nonneg_r; [|lia].
    pose proof nanosPerDay_pos. lia.
  - change (AddDate nowRounded 0 (-6) 0) with (sixBack nowRounded).
    rewrite <- Nat.iter_succ_r.
    destruct (sixBack_iter nowRounded (S (S n))) as [-> _].
    rewrite AddDate_absDays.
    destruct (sixBackDays_around_limit (absDays nowRounded) years (S n)
                Hy Hn) as [_ Hup].
    apply Z.add_lt_mono_l. apply Z.mul_lt_mono_pos_r; [|lia].
    apply nanosPerDay_pos.
Qed.

(** X17.  Whatever the date, the partition has four periods for the
    two-year label, two for the one-year label, three for the week and one
    for each of the other labels. *)
Theorem partition_sizes extra roundedNow :
  let size := fun interval =>
    option_map (@length timePeriod)
      (getIntervalPartition (loopFuel + extra) roundedNow interval) in
  size TWOYEAR = Some 4%nat /\
  size YEAR = Some 2%nat /\
  size SIXMONTH = Some 1%nat /\
  size THREEMONTH = Some 1%nat /\
  size MONTH = Some 1%nat /\
  size WEEK = Some 3%nat /\
  size DAY = Some 1%nat.
Proof.
  cbv zeta.
  destruct (getIntervalPartition_by_label (loopFuel + extra) roundedNow)
    as (P2 & P1 & P6 & P3 & Pm).
  rewrite P2, P1, P6, P3, Pm, week_shape, day_shape.
  set (nowRounded := AddDate roundedNow 0 0 1).
  destruct (sixMonthPeriods_years 2 3 nowRounded extra ltac:(lia) ltac:(lia))
    as (p2 & H2 & L2).
  destruct (sixMonthPeriods_years 1 1 nowRounded (2 + extra) ltac:(lia)
              ltac:(lia)) as (p1 & H1 & L1).
  change (S (S 3) + extra)%nat with (loopFuel + extra)%nat in H2.
  change (S (S 1) + (2 + extra))%nat with (loopFuel + extra)%nat in H1.
  change (- (2)) with (-2) in H2. change (- (1)) with (-1) in H1.
  rewrite H2, H1. simpl. rewrite L2, L1. repeat split; reflexivity.
Qed.

End PartitionSizes.

#[local] Transparent AddDate addDays.

(** ** The further properties on concrete inputs *)


Lemma poll_points_within_periods_witness :
  exists period,
    In period
       [mkPeriod (Unix 1499904000 0) (Unix 1500076800 0);
        mkPeriod (Unix 1499644800 0) (Unix 1499904000 0);
        mkPeriod (Unix 1499385600 0) (Unix 1499644800 0)] /\
    tp_start period <= Unix 1500000000 0 <= tp_end period.
Proof.
  apply (poll_points_within_periods (labels := sampleLabels)
           (ext := sampleExt) 0 jul14_2017 netOneCandle "1w"
           [mkPeriod (Unix 1499904000 0) (Unix 1500076800 0);
            mkPeriod (Unix 1499644800 0) (Unix 1499904000 0);
            mkPeriod (Unix 1499385600 0) (Unix 1499644800 0)]
           [mkPricePoint 1500000000 "0.5"]
           ltac:(vm_compute; tauto)
           ltac:(vm_compute; reflexivity)
           ltac:(vm_compute; reflexivity)
           (mkPricePoint 1500000000 "0.5")).
  left. reflexivity.
Defined.

Lemma poll_error_codes_witness :
  (0 = 400 <->
   ~ In (ToUpper "1w") (supportedIntervals (labels := sampleLabels))) /\
  (0 = 0 \/ 0 = 400 \/ 0 = 500).
Proof.
  apply (poll_error_codes (labels := sampleLabels) (ext := sampleExt) 0
           jun14_2017 netNotFound "1w" (mkError "NotFound" 0)).
  vm_compute. reflexivity.
Defined.

Lemma decode_failure_aborts_witness :
  PollGdaxHistorical (labels := sampleLabels) (ext := sampleExt)
    (loopFuel + 0) jun14_2017 netGarbledRows "1w"
  = ([requestOf 3600 (mkPeriod (Unix 1497312000 0) (Unix 1497484800 0))],
     Returned (None, Some (mkError "invalid character" 500))).
Proof.
  apply (decode_failure_aborts (labels := sampleLabels) (ext := sampleExt)
           0 jun14_2017 netGarbledRows "1w" weekOfJun14
           (mkPeriod (Unix 1497312000 0) (Unix 1497484800 0))
           [mkPeriod (Unix 1497052800 0) (Unix 1497312000 0);
            mkPeriod (Unix 1496793600 0) (Unix 1497052800 0)]
           [] [] (mkResponse 200 "<html>") "invalid character").
  - vm_compute. tauto.
  - vm_compute. reflexivity.
  - apply reaches_here.
  - reflexivity.
  - reflexivity.
  - reflexivity.
Defined.

Lemma transport_error_with_response_aborts_witness :
  PollGdaxHistorical (labels := sampleLabels) (ext := sampleExt)
    (loopFuel + 0) jun14_2017 netTooManyRedirects "1w"
  = ([requestOf 3600 (mkPeriod (Unix 1497312000 0) (Unix 1497484800 0))],
     Returned (None, Some (mkError "Failed to reach GDAX API" 500))).
Proof.
  apply (transport_error_with_response_aborts (labels := sampleLabels)
           (ext := sampleExt) 0 jun14_2017 netTooManyRedirects "1w"
           weekOfJun14
           (mkPeriod (Unix 1497312000 0) (Unix 1497484800 0))
           [mkPeriod (Unix 1497052800 0) (Unix 1497312000 0);
            mkPeriod (Unix 1496793600 0) (Unix 1497052800 0)]
           [] [] (mkResponse 302 EmptyString) "stopped after 10 redirects").
  - vm_compute. tauto.
  - vm_compute. reflexivity.
  - apply reaches_here.
  - reflexivity.
Defined.

(** The second turn is reached through a first turn that succeeds; its GET
    hands back no response. *)
Lemma nil_response_panics_witness :
  PollGdaxHistorical (labels := sampleLabels) (ext := sampleExt)
    (loopFuel + 0) jun14_2017 netFailsSecond "1w"
  = ([requestOf 3600 (mkPeriod (Unix 1497312000 0) (Unix 1497484800 0));
      requestOf 3600 (mkPeriod (Unix 1497052800 0) (Unix 1497312000 0))],
     Panicked NilDereference).
Proof.
  apply (nil_response_panics (labels := sampleLabels) (ext := sampleExt)
           0 jun14_2017 netFailsSecond "1w" weekOfJun14
           (mkPeriod (Unix 1497052800 0) (Unix 1497312000 0))
           [mkPeriod (Unix 1496793600 0) (Unix 1497052800 0)]
           []
           [requestOf 3600
              (mkPeriod (Unix 1497312000 0) (Unix 1497484800 0))]
           (Some "dial tcp: connection refused"%string)).
  - vm_compute. tauto.
  - vm_compute. reflexivity.
  - apply (reaches_turn (labels := sampleLabels) (ext := sampleExt)
             netFailsSecond _
             (mkPeriod (Unix 1497312000 0) (Unix 1497484800 0)) _ [] []
             (mkResponse 200 "[[1500000000,0.5]]")
             [[f_1500000000; f_half]] []).
    + reflexivity.
    + reflexivity.
    + reflexivity.
    + vm_compute. reflexivity.
    + apply reaches_here.
  - reflexivity.
Defined.

Lemma poll_all_success_witness :
  PollGdaxHistorical (labels := sampleLabels) (ext := sampleExt)
    (loopFuel + 0) jul14_2017 netOneCandle "1w"
  = (map (requestOf 3600)
       [mkPeriod (Unix 1499904000 0) (Unix 1500076800 0);
        mkPeriod (Unix 1499644800 0) (Unix 1499904000 0);
        mkPeriod (Unix 1499385600 0) (Unix 1499644800 0)],
     Returned (Some [mkPricePoint 1500000000 "0.5"], None)).
Proof.
  apply (poll_all_success (labels := sampleLabels) (ext := sampleExt) 0
           jul14_2017 netOneCandle "1w"
           [mkPeriod (Unix 1499904000 0) (Unix 1500076800 0);
            mkPeriod (Unix 1499644800 0) (Unix 1499904000 0);
            mkPeriod (Unix 1499385600 0) (Unix 1499644800 0)]
           (fun _ => "[[1500000000,0.5]]"%string)
           (fun _ => [[f_1500000000; f_half]])).
  - vm_compute. tauto.
  - vm_compute. reflexivity.
  - intros sent url. reflexivity.
  - intros url. reflexivity.
  - intros url. repeat constructor.
Defined.

Lemma periods_within_200_candles_witness :
  0 <= Unix 1497484800 0 - Unix 1497312000 0
    <= 200 * (granularityOf (labels := sampleLabels) "1D" * nanosPerSecond).
Proof.
  apply (periods_within_200_candles (labels := sampleLabels) 0 jun14_2017
           "1D" [mkPeriod (Unix 1497312000 0) (Unix 1497484800 0)]
           (mkPeriod (Unix 1497312000 0) (Unix 1497484800 0))).
  - vm_compute. tauto.
  - vm_compute. reflexivity.
  - left. reflexivity.
Defined.

